(** * SSH server manager: staged change workflow

    A shallow embedding of [ssh_server_manager.py].  The Python module keeps
    a process-wide table of pending changes, talks to a remote host through
    paramiko (used as an external collaborator) and reports every outcome as
    a text.  The embedding keeps these three aspects:

    - Python [str] values are lists of Unicode code points;
    - every function of the class [Tools] is a computation in a state and
      exception monad over a [World] (pending table, number of random draws,
      log of the transport calls made so far);
    - the remote side is an oracle [Env] that decides, from the log, whether
      a transport call raises and what it returns. *)

From Stdlib Require Import String Ascii ZArith NArith List Lia Bool DecimalString.
From stdpp Require Import gmap list.

(** ** Python strings *)

Module PyStr.

(** A Python [str]: the sequence of its code points. *)
Definition str := list N.

(** An ASCII literal of the source as a [str]. *)
Definition py (s : string) : str := map N_of_ascii (list_ascii_of_string s).
Arguments py s%_string.

(** Truth value of a [str] in a condition: non-empty. *)
Definition truthy (s : str) : bool :=
  match s with [] => false | _ :: _ => true end.

(** [str.startswith]. *)
Fixpoint startswith (s p : str) {struct p} : bool :=
  match p, s with
  | [], _ => true
  | _ :: _, [] => false
  | a :: p', b :: s' => (a =? b)%N && startswith s' p'
  end.

(** [sub in s]: [sub] occurs in [s] as a contiguous slice. *)
Fixpoint str_in (sub s : str) : bool :=
  startswith s sub ||
  match s with
  | [] => false
  | _ :: s' => str_in sub s'
  end.

(** [str.isspace] on one code point: the code points Python classifies as
    whitespace. *)
Definition isspace (c : N) : bool :=
  ((9 <=? c) && (c <=? 13) || (28 <=? c) && (c <=? 32) ||
   (c =? 133) || (c =? 160) || (c =? 5760) ||
   (8192 <=? c) && (c <=? 8202) || (c =? 8232) || (c =? 8233) ||
   (c =? 8239) || (c =? 8287) || (c =? 12288))%N.

Fixpoint lstrip (s : str) : str :=
  match s with
  | [] => []
  | c :: s' => if isspace c then lstrip s' else s
  end.

Definition rstrip (s : str) : str := rev (lstrip (rev s)).

(** [str.strip()] with no argument. *)
Definition strip (s : str) : str := rstrip (lstrip s).

(** [os.path.basename] (posixpath): what follows the last slash. *)
Fixpoint basename_from (acc p : str) : str :=
  match p with
  | [] => acc
  | c :: p' => if (c =? 47)%N then basename_from [] p'
               else basename_from (acc ++ [c]) p'
  end.

Definition basename (p : str) : str := basename_from [] p.

(** [str.endswith] for a one-character suffix. *)
Definition endswith_char (s : str) (c : N) : bool :=
  match rev s with
  | [] => false
  | d :: _ => (d =? c)%N
  end.

(** [os.path.join a b] (posixpath) for two components. *)
Definition path_join (a b : str) : str :=
  if startswith b [47%N] then b
  else if negb (truthy a) || endswith_char a 47 then a ++ b
  else a ++ [47%N] ++ b.

(** [str(n)] for an [int]. *)
Definition str_of_int (n : Z) : str :=
  map N_of_ascii (list_ascii_of_string (NilZero.string_of_int (Z.to_int n))).

End PyStr.
Export PyStr.

(** ** UUIDs (Python's [uuid] module, as far as the source uses it) *)

Module Uuid.

(** [uuid.uuid4()]: sixteen random bytes read as an integer, with the
    variant and version bits forced. *)
Definition uuid4_int (r : N) : N :=
  let i := (r mod 2 ^ 128)%N in
  let i := N.ldiff i (N.shiftl 49152 48) in
  let i := N.lor i (N.shiftl 32768 48) in
  let i := N.ldiff i (N.shiftl 61440 64) in
  N.lor i (N.shiftl 4 76).

Definition hex_digit (d : N) : N :=
  if (d <? 10)%N then (48 + d)%N else (87 + d)%N.

(** ['%0<width>x' % n]. *)
Fixpoint hex_fixed (width : nat) (n : N) : str :=
  match width with
  | O => []
  | S w => hex_fixed w (n / 16) ++ [hex_digit (n mod 16)]
  end.

(** [UUID.hex]: thirty-two lowercase hexadecimal digits. *)
Definition hex (u : N) : str := hex_fixed 32 u.

(** [str(UUID)]: the digits grouped 8-4-4-4-12. *)
Definition to_str (u : N) : str :=
  let h := hex u in
  firstn 8 h ++ py "-" ++ firstn 4 (skipn 8 h) ++ py "-" ++
  firstn 4 (skipn 12 h) ++ py "-" ++ firstn 4 (skipn 16 h) ++ py "-" ++
  skipn 20 h.

End Uuid.

(** ** The world: pending table, random draws, transport log *)

(** One value of [_pending_actions]: the dict
    [{"type": ..., "file_path": ..., "content": ...}]. *)
Record Action := mkAction {
  type : str;
  file_path : str;
  content : str
}.

(** The calls the module makes on paramiko objects, in the order made. *)
Inductive Event :=
| Connect                       (* client.connect(...), with key path expansion *)
| ExecCommand (command : str)   (* client.exec_command, reading and decoding both streams *)
| ClientClose                   (* client.close() *)
| OpenSftp                      (* client.open_sftp() *)
| SftpOpen (path mode : str)    (* sftp.open(path, mode) *)
| FileRead                      (* f.read().decode("utf-8") *)
| FileWrite (data : str)        (* f.write(data) *)
| FileClose                     (* leaving the with block *)
| SftpClose.                    (* sftp.close() *)

(** The remote side and the random source.  [raises] receives the log ending
    with the call being attempted and says whether it raises (and with which
    message); [streams] and [file_data] give what a call that did not raise
    returns. *)
Record Env := mkEnv {
  urandom : nat -> N;
  raises : list Event -> option str;
  streams : list Event -> str * str;
  file_data : list Event -> str
}.

Record World := mkWorld {
  _pending_actions : gmap str Action;
  draws : nat;
  events : list Event
}.

(** ** State and exception monad *)

Inductive Result (A : Type) :=
| Ok (a : A)
| Raise (e : str).
Arguments Ok {A} a.
Arguments Raise {A} e.

Definition M (A : Type) : Type := World -> World * Result A.

Definition ret {A} (a : A) : M A := fun w => (w, Ok a).

Definition raise {A} (e : str) : M A := fun w => (w, Raise e).

Definition bind {A B} (m : M A) (k : A -> M B) : M B := fun w =>
  match m w with
  | (w', Ok a) => k a w'
  | (w', Raise e) => (w', Raise e)
  end.

Notation "x <- m ;; k" := (bind m (fun x => k))
  (at level 100, m at next level, right associativity).
Notation "m ;;; k" := (bind m (fun _ => k))
  (at level 100, k at level 200, right associativity).

(** Runs [m] and hands its outcome, normal or exceptional, to the caller. *)
Definition attempt {A} (m : M A) : M (Result A) := fun w =>
  let (w', r) := m w in (w', Ok r).

(** [try: body except Exception as e: handler e]. *)
Definition try_except {A} (body : M A) (handler : str -> M A) : M A :=
  r <- attempt body ;;
  match r with
  | Ok a => ret a
  | Raise e => handler e
  end.

Definition get_pending : M (gmap str Action) := fun w =>
  (w, Ok (_pending_actions w)).

Definition set_pending (t : gmap str Action) : M unit := fun w =>
  (mkWorld t (draws w) (events w), Ok tt).

(** ** Module-level helper *)

(** Lines 15-22.  [allowed_prefixes] is [None] or a list; a list counts in
    the condition of line 19 when it is not empty. *)
Definition _validate_path (path : str) (allowed_prefixes : option (list str))
  : bool :=
  if str_in (py "..") path || str_in [0%N] path then false
  else
    match allowed_prefixes with
    | Some (p :: ps) =>
        if negb (existsb (fun p => startswith path p) (p :: ps)) then false
        else true
    | _ => true
    end.

(** ** The class [Tools] *)

Module Tools.
Section WithEnv.

Variable env : Env.

(** One call on a paramiko object: logged, then it raises or not as the
    environment decides. *)
Definition call (ev : Event) : M unit := fun w =>
  let w' := mkWorld (_pending_actions w) (draws w) (events w ++ [ev]) in
  match raises env (events w') with
  | Some e => (w', Raise e)
  | None => (w', Ok tt)
  end.

(** [client.exec_command(command)] followed by [stdout.read().decode] and
    [stderr.read().decode]: the two decoded streams. *)
Definition exec_command (command : str) : M (str * str) :=
  call (ExecCommand command) ;;;
  fun w => (w, Ok (streams env (events w))).

(** [f.read().decode("utf-8")]. *)
Definition file_read : M str :=
  call FileRead ;;;
  fun w => (w, Ok (file_data env (events w))).

(** [uuid.uuid4()]: consumes one random draw. *)
Definition uuid4 : M N := fun w =>
  (mkWorld (_pending_actions w) (S (draws w)) (events w),
   Ok (Uuid.uuid4_int (urandom env (draws w)))).

(** [with sftp.open(path, mode) as f: body]: the file is closed when the
    block is left, normally or not; an exception of the close wins. *)
Definition with_open {A} (path mode : str) (body : M A) : M A :=
  call (SftpOpen path mode) ;;;
  r <- attempt body ;;
  c <- attempt (call FileClose) ;;
  match c, r with
  | Raise e, _ => raise e
  | Ok _, Raise e => raise e
  | Ok _, Ok a => ret a
  end.

(** Lines 35-44. *)
Definition _get_ssh_client : M unit :=
  try_except (call Connect)
    (fun e => raise (py "Failed to establish SSH connection: " ++ e)).

(** Line 60, the text of the handler. *)
Definition run_failure (command e : str) : str :=
  py "Failed to run command '" ++ command ++ py "': " ++ e.

(** Line 57, the error report. *)
Definition error_report (output error : str) : str :=
  py "Error executing command:" ++ [10%N] ++ py "STDOUT:" ++ [10%N] ++
  output ++ [10%N] ++ py "STDERR:" ++ [10%N] ++ error.

(** Line 56, the condition under which a command counts as failed. *)
Definition judged_failed (error : str) : bool :=
  truthy error && negb (str_in (py "sudo") error).

(** Lines 50-51: the command line 52 executes, the one given, behind a
    [cd] when a working directory is. *)
Definition effective_command (command : str) (working_dir : option str)
  : str :=
  match working_dir with
  | Some d => if truthy d then py "cd " ++ d ++ py " && " ++ command
              else command
  | None => command
  end.

(** Lines 46-60.  The handler of line 60 formats the variable [command],
    which line 51 may have rebound: an exception of line 49 reports the
    command as given, a later one the command with its [cd] prefix. *)
Definition _run_remote_command (command : str) (working_dir : option str)
  : M str :=
  r <- attempt _get_ssh_client ;;
  match r with
  | Raise e => ret (run_failure command e)
  | Ok client =>
      let command := effective_command command working_dir in
      try_except
        (so <- exec_command command ;;
         let output := strip (fst so) in
         let error := strip (snd so) in
         call ClientClose ;;;
         if judged_failed error then ret (error_report output error)
         else ret (if truthy output then output else error))
        (fun e => ret (run_failure command e))
  end.

(** Lines 62-73. *)
Definition _read_remote_file_content (remote_path : str) : M str :=
  try_except
    (_get_ssh_client ;;;
     call OpenSftp ;;;
     content <- with_open remote_path (py "r") file_read ;;
     call SftpClose ;;;
     call ClientClose ;;;
     ret content)
    (fun e => ret (py "Error reading file '" ++ remote_path ++ py "': " ++ e)).

(** Line 80. *)
Definition temp_path (remote_path : str) (u : N) : str :=
  py "/tmp/" ++ basename remote_path ++ py ".tmp_" ++ Uuid.hex u.

(** Line 84. *)
Definition move_command (temp_remote_path remote_path : str) : str :=
  py "sudo mv " ++ temp_remote_path ++ py " " ++ remote_path.

(** Lines 75-91. *)
Definition _write_remote_file_content (remote_path content : str) : M str :=
  try_except
    (_get_ssh_client ;;;
     call OpenSftp ;;;
     u <- uuid4 ;;
     let temp_remote_path := temp_path remote_path u in
     with_open temp_remote_path (py "w") (call (FileWrite content)) ;;;
     call SftpClose ;;;
     result <- _run_remote_command
                 (move_command temp_remote_path remote_path) None ;;
     if str_in (py "Error") result then
       _run_remote_command (py "rm " ++ temp_remote_path) None ;;;
       ret (py "Error moving temporary file: " ++ result)
     else ret (py "Successfully updated " ++ remote_path ++ py "."))
    (fun e => ret (py "Error writing file " ++ remote_path ++ py ": " ++ e)).

(** Lines 95-98. *)
Definition read_docker_container_logs (container_name : str) (lines : Z)
  : M str :=
  _run_remote_command
    (py "docker logs " ++ container_name ++ py " --tail " ++ str_of_int lines)
    None.

(** Lines 100-103. *)
Definition read_docker_compose_logs (service_name : str) (lines : Z)
    (compose_project_dir : str) : M str :=
  _run_remote_command
    (py "docker-compose logs --tail=" ++ str_of_int lines ++ py " " ++
     service_name)
    (Some compose_project_dir).

(** Lines 105-108. *)
Definition list_docker_compose_containers (compose_project_dir : str)
  : M str :=
  _run_remote_command (py "docker-compose ps") (Some compose_project_dir).

(** Lines 110-113. *)
Definition docker_compose_action (action compose_project_dir : str) : M str :=
  _run_remote_command (py "docker-compose " ++ action)
    (Some compose_project_dir).

(** Lines 115-118. *)
Definition read_docker_compose_file (compose_project_dir : str) : M str :=
  _read_remote_file_content
    (path_join compose_project_dir (py "docker-compose.yml")).

(** Lines 120-123. *)
Definition read_crontab (username : str) : M str :=
  _run_remote_command (py "sudo crontab -u " ++ username ++ py " -l") None.

(** Lines 125-127. *)
Definition read_nginx_config (config_path : str) : M str :=
  _read_remote_file_content config_path.

(** Line 133, the text returned by a proposal. *)
Definition proposed_message (action_id : str) : str :=
  py "Proposed Nginx config update stored. To apply, say: 'Apply change " ++
  action_id ++ py "'.".

(** Lines 129-133. *)
Definition propose_nginx_config_update (proposed_content config_path : str)
  : M str :=
  u <- uuid4 ;;
  let action_id := Uuid.to_str u in
  t <- get_pending ;;
  set_pending
    (<[action_id := mkAction (py "nginx_config_update") config_path
                      proposed_content]> t) ;;;
  ret (proposed_message action_id).

(** Line 143. *)
Definition not_found_message (action_id : str) : str :=
  py "Error: No pending change found with ID '" ++ action_id ++ py "'.".

(** Line 152. *)
Definition validation_command (nginx_container_name : str) : str :=
  py "sudo docker exec " ++ nginx_container_name ++ py " nginx -t".

(** Line 156. *)
Definition reload_command (nginx_container_name : str) : str :=
  py "sudo docker exec " ++ nginx_container_name ++ py " nginx -s reload".

(** Line 154, negated: the validation output carries a success phrase. *)
Definition validation_ok (validation_output : str) : bool :=
  str_in (py "syntax is ok") validation_output ||
  str_in (py "test is successful") validation_output.

(** Lines 149-164: what runs once the entry has been taken out of the
    table. *)
Definition apply_action (action_details : Action)
    (nginx_container_name : str) : M str :=
  let action_type := type action_details in
  let file_path := file_path action_details in
  let content := content action_details in
  if decide (action_type = py "nginx_config_update") then
    result <- _write_remote_file_content file_path content ;;
    if str_in (py "Successfully updated") result then
      validation_output <-
        _run_remote_command (validation_command nginx_container_name) None ;;
      if negb (validation_ok validation_output) then
        ret (py "Nginx config updated, but validation failed: " ++
             validation_output ++ py ".")
      else
        reload_output <-
          _run_remote_command (reload_command nginx_container_name) None ;;
        if str_in (py "Error") reload_output then
          ret (py "Nginx config updated and validated, but reload failed: " ++
               reload_output ++ py ".")
        else
          ret (py "Successfully applied update to '" ++ file_path ++
               py "', validated, and Nginx reloaded.")
    else ret (py "Failed to apply Nginx config update: " ++ result)
  else
    ret (py "Unknown or unhandled action type '" ++ action_type ++ py "'.").

(** Lines 135-164. *)
Definition apply_pending_change (action_id nginx_container_name : str)
  : M str :=
  t <- get_pending ;;
  match t !! action_id with
  | None => ret (not_found_message action_id)
  | Some action_details =>
      set_pending (delete action_id t) ;;;
      apply_action action_details nginx_container_name
  end.

End WithEnv.
End Tools.
Export Tools.

(** ** Running a computation *)

(** The world a computation leaves, and what it hands back. *)
Definition exec {A} (m : M A) (w : World) : World := fst (m w).
Definition outcome {A} (m : M A) (w : World) : Result A := snd (m w).

(** A computation that never raises, whatever the world. *)
Definition returns {A} (m : M A) : Prop :=
  forall w, exists a, outcome m w = Ok a.

(** A relation between the world before and after that [m] respects. *)
Definition keeps {A} (R : World -> World -> Prop) (m : M A) : Prop :=
  forall w, R w (exec m w).

(** The table is the same before and after. *)
Definition same_table (w w' : World) : Prop :=
  _pending_actions w' = _pending_actions w.

(** The log has grown by calls that all satisfy [P]. *)
Definition issues (P : Event -> Prop) (w w' : World) : Prop :=
  exists d, events w' = events w ++ d /\ Forall P d.

(** The world [w] with its table replaced. *)
Definition with_table (t : gmap str Action) (w : World) : World :=
  mkWorld t (draws w) (events w).

(** The public operations of the tool, as requests. *)
Inductive Op :=
| OpContainerLogs (container_name : str) (lines : Z)
| OpComposeLogs (service_name : str) (lines : Z) (compose_project_dir : str)
| OpListContainers (compose_project_dir : str)
| OpComposeAction (action compose_project_dir : str)
| OpComposeFile (compose_project_dir : str)
| OpCrontab (username : str)
| OpNginxConfig (config_path : str)
| OpPropose (proposed_content config_path : str)
| OpApply (action_id nginx_container_name : str).

Definition run_op (env : Env) (op : Op) : M str :=
  match op with
  | OpContainerLogs c n => read_docker_container_logs env c n
  | OpComposeLogs s n d => read_docker_compose_logs env s n d
  | OpListContainers d => list_docker_compose_containers env d
  | OpComposeAction a d => docker_compose_action env a d
  | OpComposeFile d => read_docker_compose_file env d
  | OpCrontab u => read_crontab env u
  | OpNginxConfig p => read_nginx_config env p
  | OpPropose c p => propose_nginx_config_update env c p
  | OpApply i c => apply_pending_change env i c
  end.

(** The world after a sequence of operations, run one after the other. *)
Fixpoint run_ops (env : Env) (ops : list Op) (w : World) : World :=
  match ops with
  | [] => w
  | op :: ops' => run_ops env ops' (exec (run_op env op) w)
  end.



(** The three transport calls of one [_run_remote_command] started in [w]
    all go through: connecting, executing [command], closing. *)
Definition runs_clean (env : Env) (w : World) (command : str) : Prop :=
  raises env (events w ++ [Connect]) = None /\
  raises env (events w ++ [Connect; ExecCommand command]) = None /\
  raises env (events w ++ [Connect; ExecCommand command; ClientClose]) = None.

(** The calls of one [_run_remote_command] of [command]. *)
Definition run_calls (command : str) (ev : Event) : Prop :=
  ev = Connect \/ ev = ExecCommand command \/ ev = ClientClose.

(** The calls [_write_remote_file_content] can make for a target and a
    content: the SFTP session on a temporary path, one move, one removal. *)
Definition write_calls (remote_path content : str) (ev : Event) : Prop :=
  ev = Connect \/ ev = OpenSftp \/ ev = FileWrite content \/ ev = FileClose \/
  ev = SftpClose \/ ev = ClientClose \/
  exists u,
    ev = SftpOpen (temp_path remote_path u) (py "w") \/
    ev = ExecCommand (move_command (temp_path remote_path u) remote_path) \/
    ev = ExecCommand (py "rm " ++ temp_path remote_path u).

(** A text that neither starts nor ends with whitespace (and is not
    empty), such as the phrases the source searches for. *)
Definition solid (sub : str) : bool :=
  match sub, rev sub with
  | c :: _, d :: _ => negb (isspace c) && negb (isspace d)
  | _, _ => false
  end.

(** The calls of lines 78-83 when none of them raises: the SFTP session
    that writes the temporary file. *)
Definition sftp_phase (remote_path content : str) (u : N) : list Event :=
  [Connect; OpenSftp; SftpOpen (temp_path remote_path u) (py "w");
   FileWrite content; FileClose; SftpClose].

(** Made one after the other from the log [log], none of [calls] raises. *)
Definition goes_through (env : Env) (log calls : list Event) : Prop :=
  forall n, 0 < n <= length calls -> raises env (log ++ take n calls) = None.

(** The text one [_run_remote_command] of [command] answers when started
    from the log [log] with its three calls going through. *)
Definition clean_answer (env : Env) (log : list Event) (command : str) : str :=
  let so := streams env (log ++ [Connect; ExecCommand command]) in
  let output := strip so.1 in
  let error := strip so.2 in
  if judged_failed error then error_report output error
  else if truthy output then output else error.

(** The calls of one [_read_remote_file_content] when none raises. *)
Definition read_phase (remote_path : str) : list Event :=
  [Connect; OpenSftp; SftpOpen remote_path (py "r"); FileRead; FileClose;
   SftpClose; ClientClose].

(** The requests that only talk to the host: every tool but propose and
    apply. *)
Definition remote_only (op : Op) : Prop :=
  match op with
  | OpPropose _ _ | OpApply _ _ => False
  | _ => True
  end.

(** Every pending change is an nginx update. *)
Definition all_nginx (w : World) : Prop :=
  forall k a, _pending_actions w !! k = Some a ->
              type a = py "nginx_config_update".

(** Every key of the table is the text of a UUID drawn earlier. *)
Definition keys_drawn (env : Env) (w : World) : Prop :=
  forall k, is_Some (_pending_actions w !! k) ->
            exists n, n < draws w /\
                      k = Uuid.to_str (Uuid.uuid4_int (urandom env n)).

(** The calls an apply of a change to [remote_path] can make. *)
Definition apply_calls (remote_path content nginx_container_name : str)
    (ev : Event) : Prop :=
  write_calls remote_path content ev \/
  run_calls (validation_command nginx_container_name) ev \/
  run_calls (reload_command nginx_container_name) ev.

(** A lowercase hexadecimal digit, as a character. *)
Definition is_hex_digit (c : N) : Prop :=
  (48 <= c <= 57)%N \/ (97 <= c <= 102)%N.

(** Random draws are only ever consumed. *)
Definition draws_grow (w w' : World) : Prop := draws w <= draws w'.

(** The text line 164 answers for a change of kind [action_type]. *)
Definition unknown_kind_message (action_type : str) : str :=
  py "Unknown or unhandled action type '" ++ action_type ++ py "'.".

(** A call that executes a command. *)
Definition is_exec (ev : Event) : bool :=
  match ev with ExecCommand _ => true | _ => false end.

(** ** Concrete hosts and worlds *)

Module Scenario.

Definition w0 : World := mkWorld ∅ 0 [].

Definition conf : str := py "/etc/svc/app.conf".

Definition is_connect (ev : Event) : bool :=
  match ev with Connect => true | _ => false end.

(** [nginx -t] reports on stderr; every other command is silent. *)
Definition nginx_streams (log : list Event) : str * str :=
  match last log with
  | Some (ExecCommand c) =>
      if str_in (py "nginx -t") c
      then ([], py "nginx: configuration file /etc/nginx/nginx.conf test is successful" ++ [10%N])
      else ([], [])
  | _ => ([], [])
  end.

(** A host on which every call goes through. *)
Definition healthy : Env :=
  mkEnv (fun n => N.of_nat n) (fun _ => None) nginx_streams (fun _ => []).


(** A host whose second connection of the log times out, all other calls
    going through. *)
Definition move_unreachable : Env :=
  mkEnv (fun n => N.of_nat n)
    (fun log => match last log with
                | Some Connect =>
                    if (length (filter (fun e => is_connect e = true) log) =? 2)%nat
                    then Some (py "timed out") else None
                | _ => None
                end)
    nginx_streams (fun _ => []).

(** A host that refuses to open files over SFTP. *)
Definition sftp_denied : Env :=
  mkEnv (fun n => N.of_nat n)
    (fun log => match last log with
                | Some (SftpOpen _ _) => Some (py "Permission denied")
                | _ => None
                end)
    nginx_streams (fun _ => []).



(** A target whose directory name contains the success marker of
    line 151. *)
Definition marked_conf : str := py "/srv/Successfully updated/app.conf".

(** The id the first proposal of a run receives on these hosts. *)
Definition first_id : str := Uuid.to_str (Uuid.uuid4_int 0).

(** A table holding a change of a kind the tool has no pipeline for. *)
Definition w_other_kind : World :=
  mkWorld {[ py "42" := mkAction (py "restart_service") conf (py "x") ]} 0 [].

(** A host on which the call that makes the log [n] long raises [e], all
    other calls going through; files read as [server {}] and a newline. *)
Definition fails_at (n : nat) (e : str) : Env :=
  mkEnv (fun n => N.of_nat n)
    (fun log => if (length log =? n)%nat then Some e else None)
    nginx_streams (fun _ => py "server {}" ++ [10%N]).

(** A host on which [mv] is refused. *)
Definition mv_denied : Env :=
  mkEnv (fun n => N.of_nat n) (fun _ => None)
    (fun log => match last log with
                | Some (ExecCommand c) =>
                    if startswith c (py "sudo mv ")
                    then ([], py "mv: cannot create regular file: Permission denied" ++ [10%N])
                    else ([], [])
                | _ => ([], [])
                end)
    (fun _ => []).

(** A host whose random source repeats itself. *)
Definition stuck_random : Env :=
  mkEnv (fun _ => 7%N) (fun _ => None) nginx_streams (fun _ => []).

End Scenario.

(** * Properties *)

(** ** Strings *)

Lemma startswith_app (p b : str) : startswith (p ++ b) p = true.
Proof.
  induction p as [|a p IH]; simpl; [reflexivity|].
  rewrite N.eqb_refl. exact IH.
Qed.

Lemma startswith_inv (s p : str) :
  startswith s p = true -> exists b, s = p ++ b.
Proof.
  revert s. induction p as [|a p IH]; intros s H.
  - exists s. reflexivity.
  - destruct s as [|c s]; simpl in H; [discriminate|].
    apply andb_true_iff in H as [Hac Hs].
    apply N.eqb_eq in Hac. subst c.
    destruct (IH _ Hs) as [b ->]. exists b. reflexivity.
Qed.

Lemma str_in_intro (sub a b : str) : str_in sub (a ++ sub ++ b) = true.
Proof.
  induction a as [|c a IH].
  - simpl. destruct (sub ++ b) eqn:E; simpl.
    + destruct sub; [reflexivity | discriminate].
    + rewrite <- E, startswith_app. reflexivity.
  - simpl. rewrite IH. apply orb_true_r.
Qed.

Lemma str_in_inv (sub s : str) :
  str_in sub s = true -> exists a b, s = a ++ sub ++ b.
Proof.
  induction s as [|c s IH]; simpl; intros H.
  - rewrite orb_false_r in H. destruct sub; [|discriminate].
    exists [], []. reflexivity.
  - apply orb_true_iff in H as [H|H].
    + destruct (startswith_inv _ _ H) as [b Hb].
      exists [], b. exact Hb.
    + destruct (IH H) as (a & b & ->). exists (c :: a), b. reflexivity.
Qed.

Lemma str_in_iff (sub s : str) :
  str_in sub s = true <-> exists a b, s = a ++ sub ++ b.
Proof.
  split; [apply str_in_inv|]. intros (a & b & ->). apply str_in_intro.
Qed.

(** Containment is transitive: a slice of a slice is a slice. *)
Lemma str_in_trans (x y z : str) :
  str_in x y = true -> str_in y z = true -> str_in x z = true.
Proof.
  intros Hxy Hyz.
  apply str_in_inv in Hxy as (a & b & ->).
  apply str_in_inv in Hyz as (c & d & ->).
  replace (c ++ (a ++ x ++ b) ++ d) with ((c ++ a) ++ x ++ (b ++ d))
    by (rewrite <- !app_assoc; reflexivity).
  apply str_in_intro.
Qed.

(** ** The monad: computations that never raise *)

Lemma returns_ret {A} (a : A) : returns (ret a).
Proof. intros w. exists a. reflexivity. Qed.

Lemma returns_bind {A B} (m : M A) (k : A -> M B) :
  returns m -> (forall a, returns (k a)) -> returns (bind m k).
Proof.
  intros Hm Hk w. unfold outcome, bind.
  destruct (Hm w) as [a Ha]. unfold outcome in Ha.
  destruct (m w) as [w' r]. simpl in Ha. subst r. apply Hk.
Qed.

Lemma returns_attempt {A} (m : M A) : returns (attempt m).
Proof.
  intros w. unfold outcome, attempt. destruct (m w) as [w' r].
  exists r. reflexivity.
Qed.

Lemma returns_try_except {A} (body : M A) (handler : str -> M A) :
  (forall e, returns (handler e)) -> returns (try_except body handler).
Proof.
  intros Hh. unfold try_except. apply returns_bind.
  - apply returns_attempt.
  - intros [a|e]; [apply returns_ret | apply Hh].
Qed.



(** ** The monad: relations that every step respects *)

Section Keeps.

Variable R : World -> World -> Prop.
Hypothesis R_refl : forall w, R w w.
Hypothesis R_trans : forall a b c, R a b -> R b c -> R a c.

Lemma keeps_ret {A} (a : A) : keeps R (ret a).
Proof. intros w. apply R_refl. Qed.

Lemma keeps_raise {A} (e : str) : keeps R (@raise A e).
Proof. intros w. apply R_refl. Qed.

Lemma keeps_bind {A B} (m : M A) (k : A -> M B) :
  keeps R m -> (forall a, keeps R (k a)) -> keeps R (bind m k).
Proof.
  intros Hm Hk w. specialize (Hm w). unfold exec, bind in *.
  destruct (m w) as [w' [a|e]]; simpl in *.
  - eapply R_trans; [exact Hm | apply Hk].
  - exact Hm.
Qed.

Lemma keeps_attempt {A} (m : M A) : keeps R m -> keeps R (attempt m).
Proof.
  intros Hm w. specialize (Hm w). unfold exec, attempt in *.
  destruct (m w) as [w' r]. exact Hm.
Qed.

Lemma keeps_try_except {A} (body : M A) (handler : str -> M A) :
  keeps R body -> (forall e, keeps R (handler e)) ->
  keeps R (try_except body handler).
Proof.
  intros Hb Hh. unfold try_except. apply keeps_bind.
  - apply keeps_attempt, Hb.
  - intros [a|e]; [apply keeps_ret | apply Hh].
Qed.

Lemma keeps_get_pending : keeps R get_pending.
Proof. intros w. apply R_refl. Qed.

(** *** The transport helpers, given that their calls respect [R] *)

Variable env : Env.
Variable Q : Event -> Prop.
Hypothesis R_call : forall ev, Q ev -> keeps R (call env ev).
Hypothesis R_uuid4 : keeps R (uuid4 env).

Lemma keeps_exec_command command :
  Q (ExecCommand command) -> keeps R (exec_command env command).
Proof.
  intros H. unfold exec_command. apply keeps_bind; [apply R_call, H|].
  intros _ w. apply R_refl.
Qed.

Lemma keeps_file_read : Q FileRead -> keeps R (file_read env).
Proof.
  intros H. unfold file_read. apply keeps_bind; [apply R_call, H|].
  intros _ w. apply R_refl.
Qed.

Lemma keeps_with_open {A} path mode (body : M A) :
  Q (SftpOpen path mode) -> Q FileClose -> keeps R body ->
  keeps R (with_open env path mode body).
Proof.
  intros Ho Hc Hb. unfold with_open.
  apply keeps_bind; [apply R_call, Ho|]. intros _.
  apply keeps_bind; [apply keeps_attempt, Hb|]. intros r.
  apply keeps_bind; [apply keeps_attempt, R_call, Hc|].
  intros [[]|e]; destruct r; first [apply keeps_ret | apply keeps_raise].
Qed.

Lemma keeps_get_ssh_client : Q Connect -> keeps R (_get_ssh_client env).
Proof.
  intros H. unfold _get_ssh_client. apply keeps_try_except.
  - apply R_call, H.
  - intros e. apply keeps_raise.
Qed.

Lemma keeps_run_remote_command command working_dir :
  Q Connect -> Q ClientClose ->
  Q (ExecCommand (effective_command command working_dir)) ->
  keeps R (_run_remote_command env command working_dir).
Proof.
  intros Hc Hx He. unfold _run_remote_command.
  apply keeps_bind; [apply keeps_attempt, keeps_get_ssh_client, Hc|].
  intros [[]|e]; [|apply keeps_ret].
  apply keeps_try_except; [|intros; apply keeps_ret].
  apply keeps_bind; [apply keeps_exec_command, He|]. intros so.
  apply keeps_bind; [apply R_call, Hx|]. intros _.
  destruct (judged_failed _); apply keeps_ret.
Qed.

Lemma keeps_read_remote_file_content remote_path :
  Q Connect -> Q OpenSftp -> Q (SftpOpen remote_path (py "r")) ->
  Q FileRead -> Q FileClose -> Q SftpClose -> Q ClientClose ->
  keeps R (_read_remote_file_content env remote_path).
Proof.
  intros Hc Ho Hf Hr Hfc Hsc Hcc. unfold _read_remote_file_content.
  apply keeps_try_except; [|intros; apply keeps_ret].
  apply keeps_bind; [apply keeps_get_ssh_client, Hc|]. intros _.
  apply keeps_bind; [apply R_call, Ho|]. intros _.
  apply keeps_bind.
  { apply keeps_with_open; [exact Hf | exact Hfc | apply keeps_file_read, Hr]. }
  intros content.
  apply keeps_bind; [apply R_call, Hsc|]. intros _.
  apply keeps_bind; [apply R_call, Hcc|]. intros _.
  apply keeps_ret.
Qed.

Lemma keeps_write_remote_file_content remote_path content :
  Q Connect -> Q OpenSftp -> Q (FileWrite content) -> Q FileClose ->
  Q SftpClose -> Q ClientClose ->
  (forall u, Q (SftpOpen (temp_path remote_path u) (py "w"))) ->
  (forall u, Q (ExecCommand (move_command (temp_path remote_path u) remote_path))) ->
  (forall u, Q (ExecCommand (py "rm " ++ temp_path remote_path u))) ->
  keeps R (_write_remote_file_content env remote_path content).
Proof.
  intros Hc Ho Hw Hfc Hsc Hcc Hop Hmv Hrm.
  unfold _write_remote_file_content.
  apply keeps_try_except; [|intros; apply keeps_ret].
  apply keeps_bind; [apply keeps_get_ssh_client, Hc|]. intros _.
  apply keeps_bind; [apply R_call, Ho|]. intros _.
  apply keeps_bind; [apply R_uuid4|]. intros u.
  apply keeps_bind.
  { apply keeps_with_open; [apply Hop | exact Hfc | apply R_call, Hw]. }
  intros _.
  apply keeps_bind; [apply R_call, Hsc|]. intros _.
  apply keeps_bind.
  { apply keeps_run_remote_command; [exact Hc | exact Hcc | apply Hmv]. }
  intros result. destruct (str_in _ result); [|apply keeps_ret].
  apply keeps_bind; [|intros; apply keeps_ret].
  apply keeps_run_remote_command; [exact Hc | exact Hcc | apply Hrm].
Qed.

End Keeps.

(** ** The pending table is touched by propose and apply only *)

Create HintDb frame.

Lemma same_table_refl w : same_table w w.
Proof. reflexivity. Qed.

Lemma same_table_trans a b c : same_table a b -> same_table b c -> same_table a c.
Proof. unfold same_table. congruence. Qed.

Lemma same_table_call env ev : keeps same_table (call env ev).
Proof.
  intros w. unfold exec, call, same_table. simpl.
  destruct (raises env _); reflexivity.
Qed.

Lemma same_table_uuid4 env : keeps same_table (uuid4 env).
Proof. intros w. reflexivity. Qed.

#[local] Hint Resolve same_table_refl same_table_trans same_table_uuid4 : frame.

Lemma same_table_run_remote_command env command working_dir :
  keeps same_table (_run_remote_command env command working_dir).
Proof.
  apply keeps_run_remote_command with (Q := fun _ => True); eauto with frame.
  intros ev _. apply same_table_call.
Qed.

Lemma same_table_read_remote_file_content env remote_path :
  keeps same_table (_read_remote_file_content env remote_path).
Proof.
  apply keeps_read_remote_file_content with (Q := fun _ => True);
    eauto with frame.
  intros ev _. apply same_table_call.
Qed.

Lemma same_table_write_remote_file_content env remote_path content :
  keeps same_table (_write_remote_file_content env remote_path content).
Proof.
  apply keeps_write_remote_file_content with (Q := fun _ => True);
    eauto with frame.
  intros ev _. apply same_table_call.
Qed.

Lemma same_table_apply_action env action_details nginx_container_name :
  keeps same_table (apply_action env action_details nginx_container_name).
Proof.
  unfold apply_action. case_decide; [|apply keeps_ret; eauto with frame].
  apply keeps_bind; eauto with frame.
  { apply same_table_write_remote_file_content. }
  intros result. destruct (str_in _ result); [|apply keeps_ret; eauto with frame].
  apply keeps_bind; eauto with frame.
  { apply same_table_run_remote_command. }
  intros validation_output.
  destruct (negb _); [apply keeps_ret; eauto with frame|].
  apply keeps_bind; eauto with frame.
  { apply same_table_run_remote_command. }
  intros reload_output.
  destruct (str_in _ reload_output); apply keeps_ret; eauto with frame.
Qed.

(** ** The log only grows, by the calls a function is written to make *)

Lemma issues_refl P w : issues P w w.
Proof. exists []. split; [symmetry; apply app_nil_r | constructor]. Qed.

Lemma issues_trans P a b c : issues P a b -> issues P b c -> issues P a c.
Proof.
  intros (d1 & E1 & F1) (d2 & E2 & F2). exists (d1 ++ d2). split.
  - rewrite E2, E1. symmetry. apply app_assoc.
  - apply Forall_app. split; assumption.
Qed.

Lemma issues_call env (P : Event -> Prop) ev :
  P ev -> keeps (issues P) (call env ev).
Proof.
  intros H w. exists [ev]. split.
  - unfold exec, call. simpl. destruct (raises env _); reflexivity.
  - repeat constructor. exact H.
Qed.

Lemma issues_uuid4 env P : keeps (issues P) (uuid4 env).
Proof.
  intros w. exists []. split; [symmetry; apply app_nil_r | constructor].
Qed.

Lemma issues_weaken (P P' : Event -> Prop) w w' :
  (forall ev, P ev -> P' ev) -> issues P w w' -> issues P' w w'.
Proof.
  intros H (d & E & F). exists d. split; [exact E|].
  eapply Forall_impl; eassumption.
Qed.

#[local] Hint Resolve issues_refl issues_trans issues_uuid4 : frame.

(** ** Apply: the entry is consumed first *)

(** What [apply_pending_change] does, by whether the id is pending. *)
Lemma apply_pending_change_cases env action_id nginx_container_name w :
  apply_pending_change env action_id nginx_container_name w =
  match _pending_actions w !! action_id with
  | None => (w, Ok (not_found_message action_id))
  | Some action_details =>
      apply_action env action_details nginx_container_name
        (with_table (delete action_id (_pending_actions w)) w)
  end.
Proof.
  unfold apply_pending_change, bind, get_pending.
  destruct (_pending_actions w !! action_id); reflexivity.
Qed.

Lemma apply_pending_change_table env action_id nginx_container_name w :
  _pending_actions (exec (apply_pending_change env action_id nginx_container_name) w)
  = delete action_id (_pending_actions w).
Proof.
  unfold exec. rewrite apply_pending_change_cases.
  destruct (_pending_actions w !! action_id) as [a|] eqn:E.
  - exact (same_table_apply_action env a nginx_container_name
             (with_table (delete action_id (_pending_actions w)) w)).
  - simpl. symmetry. apply delete_id, E.
Qed.


Lemma propose_nginx_config_update_eq env proposed_content config_path w :
  propose_nginx_config_update env proposed_content config_path w =
  let action_id := Uuid.to_str (Uuid.uuid4_int (urandom env (draws w))) in
  (mkWorld (<[action_id := mkAction (py "nginx_config_update") config_path
                             proposed_content]> (_pending_actions w))
           (S (draws w)) (events w),
   Ok (proposed_message action_id)).
Proof. reflexivity. Qed.


(** C8.  A pending change whose kind is not ["nginx_config_update"] is
    consumed and answered with the unknown-kind text naming the kind; no
    stage runs: the log of transport calls and the count of random draws are
    those of the world before, so nothing was written, validated or
    reloaded. *)
Theorem unknown_kind_runs_no_stage env action_id nginx_container_name w a :
  _pending_actions w !! action_id = Some a ->
  type a <> py "nginx_config_update" ->
  apply_pending_change env action_id nginx_container_name w
    = (with_table (delete action_id (_pending_actions w)) w,
       Ok (py "Unknown or unhandled action type '" ++ type a ++ py "'.")) /\
  events (exec (apply_pending_change env action_id nginx_container_name) w)
    = events w /\
  draws (exec (apply_pending_change env action_id nginx_container_name) w)
    = draws w.
Proof.
  intros E Hty.
  assert (apply_pending_change env action_id nginx_container_name w
          = (with_table (delete action_id (_pending_actions w)) w,
             Ok (py "Unknown or unhandled action type '" ++ type a ++ py "'."))) as H.
  { rewrite apply_pending_change_cases, E. unfold apply_action.
    case_decide; [contradiction | reflexivity]. }
  unfold exec. rewrite H. repeat split.
Qed.

Lemma unknown_kind_runs_no_stage_witness :
  let a := mkAction (py "restart_service") Scenario.conf (py "x") in
  apply_pending_change Scenario.healthy (py "42") (py "nginx") Scenario.w_other_kind
    = (with_table (delete (py "42") (_pending_actions Scenario.w_other_kind))
         Scenario.w_other_kind,
       Ok (py "Unknown or unhandled action type '" ++ type a ++ py "'.")) /\
  events (exec (apply_pending_change Scenario.healthy (py "42") (py "nginx"))
            Scenario.w_other_kind) = events Scenario.w_other_kind /\
  draws (exec (apply_pending_change Scenario.healthy (py "42") (py "nginx"))
           Scenario.w_other_kind) = draws Scenario.w_other_kind.
Proof.
  apply (unknown_kind_runs_no_stage Scenario.healthy (py "42") (py "nginx")
           Scenario.w_other_kind
           (mkAction (py "restart_service") Scenario.conf (py "x"))).
  - vm_compute. reflexivity.
  - vm_compute. discriminate.
Defined.

(** ** Propose: one entry under the drawn id *)









(** At the empty table, a proposal changes the table, and a second proposal
    with the same arguments changes it again: the table after two calls is
    neither the table after one nor of the same size. *)
Lemma propose_changes_the_table :
  let propose := propose_nginx_config_update Scenario.healthy (py "server{}")
                   Scenario.conf in
  _pending_actions (exec propose Scenario.w0) <> _pending_actions Scenario.w0 /\
  _pending_actions (exec propose (exec propose Scenario.w0))
    <> _pending_actions (exec propose Scenario.w0) /\
  size (_pending_actions (exec propose Scenario.w0)) = 1 /\
  size (_pending_actions (exec propose (exec propose Scenario.w0))) = 2.
Proof.
  cbv zeta.
  assert (size (_pending_actions
                  (exec (propose_nginx_config_update Scenario.healthy
                           (py "server{}") Scenario.conf) Scenario.w0)) = 1) as H1
    by (vm_compute; reflexivity).
  assert (size (_pending_actions
                  (exec (propose_nginx_config_update Scenario.healthy
                           (py "server{}") Scenario.conf)
                     (exec (propose_nginx_config_update Scenario.healthy
                              (py "server{}") Scenario.conf) Scenario.w0))) = 2) as H2
    by (vm_compute; reflexivity).
  repeat split; try assumption.
  - intros E. rewrite E in H1. vm_compute in H1. discriminate.
  - intros E. rewrite E in H2. rewrite H1 in H2. discriminate.
Qed.

(** C7, as amended.  Propose makes no transport call; its effect is local
    and is not void: one random draw is consumed and one entry is stored
    under the id drawn.  Two calls with the same arguments store the change
    under the two ids drawn, one after the other. *)
Theorem propose_effect_is_local env proposed_content config_path w :
  let entry := mkAction (py "nginx_config_update") config_path proposed_content in
  let id1 := Uuid.to_str (Uuid.uuid4_int (urandom env (draws w))) in
  let id2 := Uuid.to_str (Uuid.uuid4_int (urandom env (S (draws w)))) in
  let propose := propose_nginx_config_update env proposed_content config_path in
  events (exec propose w) = events w /\
  draws (exec propose w) = S (draws w) /\
  _pending_actions (exec propose w) = <[id1 := entry]> (_pending_actions w) /\
  outcome propose w = Ok (proposed_message id1) /\
  events (exec propose (exec propose w)) = events w /\
  _pending_actions (exec propose (exec propose w))
    = <[id2 := entry]> (<[id1 := entry]> (_pending_actions w)) /\
  outcome propose (exec propose w) = Ok (proposed_message id2).
Proof. cbv zeta. repeat split. Qed.

(** ** No tool method raises *)

Lemma returns_run_remote_command env command working_dir :
  returns (_run_remote_command env command working_dir).
Proof.
  unfold _run_remote_command. apply returns_bind; [apply returns_attempt|].
  intros [[]|e]; [|apply returns_ret].
  apply returns_try_except. intros e. apply returns_ret.
Qed.







(** What a helper hands back when the host cannot be connected to. *)
Lemma get_ssh_client_refused env w e :
  raises env (events w ++ [Connect]) = Some e ->
  _get_ssh_client env w
  = (mkWorld (_pending_actions w) (draws w) (events w ++ [Connect]),
     Raise (py "Failed to establish SSH connection: " ++ e)).
Proof.
  intros H. unfold _get_ssh_client, try_except, bind, attempt, call. simpl.
  rewrite H. reflexivity.
Qed.



(** ** One remote command: how the two streams become one text *)

(** A run whose three transport calls go through leaves exactly those calls
    in the log and answers from the two stripped streams. *)
Lemma run_remote_command_clean env command working_dir w :
  let c := effective_command command working_dir in
  let so := streams env (events w ++ [Connect; ExecCommand c]) in
  let output := strip so.1 in
  let error := strip so.2 in
  runs_clean env w c ->
  _run_remote_command env command working_dir w
  = (mkWorld (_pending_actions w) (draws w)
       (events w ++ [Connect; ExecCommand c; ClientClose]),
     Ok (if judged_failed error then error_report output error
         else if truthy output then output else error)).
Proof.
  cbv zeta. intros (Hc & Hx & Hcl).
  unfold _run_remote_command, _get_ssh_client, try_except, exec_command,
    bind, attempt, call, ret. simpl.
  rewrite Hc. simpl.
  rewrite <- !app_assoc. simpl. rewrite Hx. simpl.
  rewrite <- !app_assoc. simpl. rewrite Hcl.
  destruct (judged_failed _); reflexivity.
Qed.





(** ** Stripping keeps what lies between the surrounding whitespace *)

Lemma lstrip_split (s : str) :
  exists l, s = l ++ lstrip s /\ Forall (fun c => isspace c = true) l.
Proof.
  induction s as [|c s (l & E & F)]; simpl.
  - exists []. split; [reflexivity | constructor].
  - destruct (isspace c) eqn:Hc.
    + exists (c :: l). split; [simpl; congruence | constructor; assumption].
    + exists []. split; [reflexivity | constructor].
Qed.

Lemma rstrip_split (s : str) :
  exists r, s = rstrip s ++ r /\ Forall (fun c => isspace c = true) r.
Proof.
  destruct (lstrip_split (rev s)) as (l & E & F).
  exists (rev l). split.
  - unfold rstrip. rewrite <- rev_app_distr, <- E. symmetry. apply rev_involutive.
  - apply Forall_forall. intros c Hin. apply list_elem_of_In, in_rev in Hin.
    rewrite Forall_forall in F. apply F, list_elem_of_In, Hin.
Qed.

Lemma strip_split (s : str) :
  exists l r, s = l ++ strip s ++ r /\
    Forall (fun c => isspace c = true) l /\ Forall (fun c => isspace c = true) r.
Proof.
  destruct (lstrip_split s) as (l & El & Fl).
  destruct (rstrip_split (lstrip s)) as (r & Er & Fr).
  exists l, r. unfold strip. repeat split; [|assumption..].
  rewrite <- Er. exact El.
Qed.

(** Whatever occurs in the stripped text occurs in the text. *)
Lemma str_in_strip_inv (sub s : str) :
  str_in sub (strip s) = true -> str_in sub s = true.
Proof.
  intros H. destruct (strip_split s) as (l & r & E & _).
  eapply str_in_trans; [exact H|]. rewrite E at 2. apply str_in_intro.
Qed.

Lemma str_in_skip_space (sub l t : str) (c : N) (sub' : str) :
  sub = c :: sub' -> isspace c = false ->
  Forall (fun c => isspace c = true) l ->
  str_in sub (l ++ t) = true -> str_in sub t = true.
Proof.
  intros -> Hc F. induction F as [|x l Hx _ IH]; intros H; [exact H|].
  simpl in H. apply orb_true_iff in H as [H|H].
  - apply andb_true_iff in H as [H _]. apply N.eqb_eq in H. congruence.
  - apply IH, H.
Qed.

Lemma str_in_rev (sub s : str) :
  str_in sub s = true -> str_in (rev sub) (rev s) = true.
Proof.
  intros H. apply str_in_inv in H as (a & b & ->).
  rewrite !rev_app_distr, <- app_assoc. apply str_in_intro.
Qed.

(** A solid text that occurs in [s] occurs in [strip s]. *)
Lemma str_in_strip (sub s : str) :
  solid sub = true -> str_in sub s = true -> str_in sub (strip s) = true.
Proof.
  unfold solid. intros Hs H.
  destruct sub as [|c sub'] eqn:Esub; [discriminate|].
  destruct (rev (c :: sub')) as [|d bus] eqn:Erev; [discriminate|].
  apply andb_true_iff in Hs as [Hc Hd].
  apply negb_true_iff in Hc. apply negb_true_iff in Hd.
  destruct (strip_split s) as (l & r & E & Fl & Fr).
  rewrite E in H.
  apply (str_in_skip_space _ l _ c sub' eq_refl Hc Fl) in H.
  apply str_in_rev in H. rewrite rev_app_distr, Erev in H.
  assert (Forall (fun c => isspace c = true) (rev r)) as Fr'.
  { apply Forall_forall. intros x Hin. apply list_elem_of_In, in_rev in Hin.
    rewrite Forall_forall in Fr. apply Fr, list_elem_of_In, Hin. }
  apply (str_in_skip_space _ (rev r) _ d bus eq_refl Hd Fr') in H.
  apply str_in_rev in H. rewrite <- Erev, !rev_involutive in H. exact H.
Qed.

(** The error report carries both stripped texts. *)
Lemma error_report_carries (output error sub : str) :
  str_in sub output = true \/ str_in sub error = true ->
  str_in sub (error_report output error) = true.
Proof.
  intros [H|H]; (eapply str_in_trans; [exact H|]); unfold error_report.
  - replace (py "Error executing command:" ++ [10%N] ++ py "STDOUT:" ++ [10%N] ++
             output ++ [10%N] ++ py "STDERR:" ++ [10%N] ++ error)
      with ((py "Error executing command:" ++ [10%N] ++ py "STDOUT:" ++ [10%N]) ++
            output ++ ([10%N] ++ py "STDERR:" ++ [10%N] ++ error))
      by (rewrite <- !app_assoc; reflexivity).
    apply str_in_intro.
  - replace (py "Error executing command:" ++ [10%N] ++ py "STDOUT:" ++ [10%N] ++
             output ++ [10%N] ++ py "STDERR:" ++ [10%N] ++ error)
      with ((py "Error executing command:" ++ [10%N] ++ py "STDOUT:" ++ [10%N] ++
             output ++ [10%N] ++ py "STDERR:" ++ [10%N]) ++ error ++ [])
      by (rewrite <- !app_assoc, app_nil_r; reflexivity).
    apply str_in_intro.
Qed.

(** C9.  The two channels collapse into one text.  For a command whose
    transport calls go through: when it is not judged failed, the answer is
    the stripped stdout if that is non-empty and the stripped stderr
    otherwise; when it is judged failed, the answer is the error report,
    which embeds the stripped stdout and the stripped stderr, so whatever
    occurs in either also occurs in the answer.  The same holds for what
    occurs in the stderr as the command printed it, as long as it neither
    starts nor ends with whitespace, which is the case of the two validation
    success phrases. *)
Theorem channels_collapse env command working_dir w :
  let c := effective_command command working_dir in
  let so := streams env (events w ++ [Connect; ExecCommand c]) in
  let output := strip so.1 in
  let error := strip so.2 in
  runs_clean env w c ->
  (judged_failed error = false ->
   outcome (_run_remote_command env command working_dir) w
   = Ok (if truthy output then output else error)) /\
  (judged_failed error = true ->
   exists report,
     outcome (_run_remote_command env command working_dir) w = Ok report /\
     report = error_report output error /\
     (forall sub, str_in sub output = true -> str_in sub report = true) /\
     (forall sub, str_in sub error = true -> str_in sub report = true) /\
     (forall sub, solid sub = true -> str_in sub so.2 = true ->
                  str_in sub report = true)) /\
  solid (py "syntax is ok") = true /\
  solid (py "test is successful") = true.
Proof.
  cbv zeta. intros Hclean. unfold outcome.
  rewrite (run_remote_command_clean env command working_dir w Hclean). simpl.
  split; [intros ->; reflexivity|].
  split; [|split; reflexivity].
  intros ->. eexists. split; [reflexivity|]. split; [reflexivity|].
  split; [|split].
  - intros sub H. apply error_report_carries. left. exact H.
  - intros sub H. apply error_report_carries. right. exact H.
  - intros sub Hs H. apply error_report_carries. right.
    apply str_in_strip; assumption.
Qed.

Lemma channels_collapse_witness :
  let env := Scenario.healthy in
  let c := py "sudo docker exec nginx nginx -t" in
  let so := streams env [Connect; ExecCommand c] in
  let output := strip so.1 in
  let error := strip so.2 in
  (judged_failed error = false ->
   outcome (_run_remote_command env c None) Scenario.w0
   = Ok (if truthy output then output else error)) /\
  (judged_failed error = true ->
   exists report,
     outcome (_run_remote_command env c None) Scenario.w0 = Ok report /\
     report = error_report output error /\
     (forall sub, str_in sub output = true -> str_in sub report = true) /\
     (forall sub, str_in sub error = true -> str_in sub report = true) /\
     (forall sub, solid sub = true -> str_in sub so.2 = true ->
                  str_in sub report = true)) /\
  solid (py "syntax is ok") = true /\
  solid (py "test is successful") = true.
Proof.
  apply (channels_collapse Scenario.healthy
           (py "sudo docker exec nginx nginx -t") None Scenario.w0).
  repeat split.
Defined.

(** ** Apply: the stages after the commit *)


(** What [apply_pending_change] does for a pending nginx update, stage by
    stage, given what each stage answered. *)
Lemma apply_pending_change_stages env action_id nginx_container_name w a
    w1 result :
  _pending_actions w !! action_id = Some a ->
  type a = py "nginx_config_update" ->
  _write_remote_file_content env (file_path a) (content a)
    (with_table (delete action_id (_pending_actions w)) w) = (w1, Ok result) ->
  apply_pending_change env action_id nginx_container_name w =
  if str_in (py "Successfully updated") result then
    match _run_remote_command env (validation_command nginx_container_name) None w1 with
    | (w2, Ok validation_output) =>
        if validation_ok validation_output then
          match _run_remote_command env (reload_command nginx_container_name) None w2 with
          | (w3, Ok reload_output) =>
              (w3, Ok (if str_in (py "Error") reload_output
                       then py "Nginx config updated and validated, but reload failed: " ++
                            reload_output ++ py "."
                       else py "Successfully applied update to '" ++ file_path a ++
                            py "', validated, and Nginx reloaded."))
          | (w3, Raise e) => (w3, Raise e)
          end
        else (w2, Ok (py "Nginx config updated, but validation failed: " ++
                      validation_output ++ py "."))
    | (w2, Raise e) => (w2, Raise e)
    end
  else (w1, Ok (py "Failed to apply Nginx config update: " ++ result)).
Proof.
  intros E Hty Hw. rewrite apply_pending_change_cases, E.
  unfold apply_action. case_decide; [|contradiction].
  unfold bind at 1. rewrite Hw.
  destruct (str_in _ result); [|reflexivity].
  unfold bind at 1.
  destruct (_run_remote_command env (validation_command _) None w1)
    as [w2 [validation_output|e]]; [|reflexivity].
  destruct (validation_ok validation_output); simpl; [|reflexivity].
  unfold bind at 1.
  destruct (_run_remote_command env (reload_command _) None w2)
    as [w3 [reload_output|e]]; [|reflexivity].
  destruct (str_in _ reload_output); reflexivity.
Qed.



(** On a healthy host a proposal followed by its apply goes through the
    three stages and leaves the table empty. *)
Example healthy_apply_goes_through :
  let env := Scenario.healthy in
  let wp := exec (propose_nginx_config_update env (py "server{}") Scenario.conf)
              Scenario.w0 in
  outcome (apply_pending_change env Scenario.first_id (py "nginx")) wp
    = Ok (py "Successfully applied update to '/etc/svc/app.conf', validated, and Nginx reloaded.") /\
  _pending_actions (exec (apply_pending_change env Scenario.first_id (py "nginx")) wp)
    = ∅.
Proof. cbv zeta. split; vm_compute; reflexivity. Qed.

(** ** The marker search of lines 86 and 151 *)

(** C3, evaluated where it fails.  The host accepts the SFTP write of the
    temporary file, then the connection opened for the move times out.
    [_run_remote_command] answers the move with its transport-failure text,
    which does not contain ["Error"]; [_write_remote_file_content] therefore
    takes the move for done: it answers with the success text, and the log
    ends with the refused connection, with no [mv] and no [rm] executed. *)
Theorem unsent_move_reported_as_success :
  let env := Scenario.move_unreachable in
  let tmp := temp_path Scenario.conf (Uuid.uuid4_int 0) in
  let sent := [Connect; OpenSftp; SftpOpen tmp (py "w");
               FileWrite (py "server{}"); FileClose; SftpClose] in
  let answer :=
    py "Failed to run command 'sudo mv /tmp/app.conf.tmp_00000000000040008000000000000000 /etc/svc/app.conf': Failed to establish SSH connection: timed out" in
  tmp = py "/tmp/app.conf.tmp_00000000000040008000000000000000" /\
  _run_remote_command env (move_command tmp Scenario.conf) None
    (mkWorld ∅ 1 sent) = (mkWorld ∅ 1 (sent ++ [Connect]), Ok answer) /\
  str_in (py "Error") answer = false /\
  _write_remote_file_content env Scenario.conf (py "server{}") Scenario.w0
    = (mkWorld ∅ 1 (sent ++ [Connect]),
       Ok (py "Successfully updated /etc/svc/app.conf.")).
Proof. cbv zeta. repeat split; vm_compute; reflexivity. Qed.

(** C2, evaluated where it fails.  Two commits that fail and are followed by
    validation and reload all the same.  In the first the connection opened
    for the move times out, so the target is never replaced, yet the commit
    answers with the success text.  In the second the host refuses the SFTP
    write and the commit answers with its write-failed text, but the target
    path, which that text quotes, contains ["Successfully updated"].  Both
    times apply goes on to execute the validation command and the reload
    command and reports the change as applied. *)
Theorem failed_commit_still_validates_and_reloads :
  let nginx := py "nginx" in
  let later_stages :=
    [Connect; ExecCommand (validation_command nginx); ClientClose;
     Connect; ExecCommand (reload_command nginx); ClientClose] in
  (let env := Scenario.move_unreachable in
   let wp := exec (propose_nginx_config_update env (py "server{}") Scenario.conf)
               Scenario.w0 in
   let tmp := temp_path Scenario.conf (Uuid.uuid4_int 1) in
   _pending_actions wp !! Scenario.first_id
     = Some (mkAction (py "nginx_config_update") Scenario.conf (py "server{}")) /\
   apply_pending_change env Scenario.first_id nginx wp
     = (mkWorld ∅ 2
          ([Connect; OpenSftp; SftpOpen tmp (py "w"); FileWrite (py "server{}");
            FileClose; SftpClose; Connect] ++ later_stages),
        Ok (py "Successfully applied update to '/etc/svc/app.conf', validated, and Nginx reloaded."))) /\
  (let env := Scenario.sftp_denied in
   let wp := exec (propose_nginx_config_update env (py "server{}")
                     Scenario.marked_conf) Scenario.w0 in
   let tmp := temp_path Scenario.marked_conf (Uuid.uuid4_int 1) in
   _pending_actions wp !! Scenario.first_id
     = Some (mkAction (py "nginx_config_update") Scenario.marked_conf
               (py "server{}")) /\
   outcome (_write_remote_file_content env Scenario.marked_conf (py "server{}"))
     (with_table ∅ wp)
     = Ok (py "Error writing file /srv/Successfully updated/app.conf: Permission denied") /\
   apply_pending_change env Scenario.first_id nginx wp
     = (mkWorld ∅ 2
          ([Connect; OpenSftp; SftpOpen tmp (py "w")] ++ later_stages),
        Ok (py "Successfully applied update to '/srv/Successfully updated/app.conf', validated, and Nginx reloaded."))).
Proof. cbv zeta. repeat split; vm_compute; reflexivity. Qed.

(** ** What holds of the commit and of the short-circuit *)

(** Every transport call of [_write_remote_file_content] is one of
    [write_calls]. *)
Lemma issues_write_remote_file_content env remote_path content w :
  issues (write_calls remote_path content) w
    (exec (_write_remote_file_content env remote_path content) w).
Proof.
  apply keeps_write_remote_file_content
    with (R := issues (write_calls remote_path content))
         (Q := write_calls remote_path content);
    eauto with frame; unfold write_calls; auto 8.
  - intros ev H. apply issues_call, H.
  - intros u. do 6 right. exists u. auto.
  - intros u. do 6 right. exists u. auto.
  - intros u. do 6 right. exists u. auto.
Qed.

(** None of them executes the validation or the reload command. *)
Lemma write_calls_not_docker remote_path content nginx_container_name ev :
  write_calls remote_path content ev ->
  ev <> ExecCommand (validation_command nginx_container_name) /\
  ev <> ExecCommand (reload_command nginx_container_name).
Proof.
  unfold write_calls, move_command, validation_command, reload_command.
  intros [->|[->|[->|[->|[->|[->|(u & [->|[->| ->]])]]]]]];
    split; intros H; try discriminate H;
    injection H as H; vm_compute in H; discriminate H.
Qed.

(** When the text the commit answers lacks the success marker, apply stops
    there: it answers with the commit-failed text, and the calls it made are
    those of the commit, none of which is the validation or the reload
    command. *)
Lemma unmarked_commit_short_circuits env action_id nginx_container_name w a
    w1 result :
  _pending_actions w !! action_id = Some a ->
  type a = py "nginx_config_update" ->
  _write_remote_file_content env (file_path a) (content a)
    (with_table (delete action_id (_pending_actions w)) w) = (w1, Ok result) ->
  str_in (py "Successfully updated") result = false ->
  apply_pending_change env action_id nginx_container_name w
    = (w1, Ok (py "Failed to apply Nginx config update: " ++ result)) /\
  exists d,
    events (exec (apply_pending_change env action_id nginx_container_name) w)
      = events w ++ d /\
    Forall (fun ev =>
              ev <> ExecCommand (validation_command nginx_container_name) /\
              ev <> ExecCommand (reload_command nginx_container_name)) d.
Proof.
  intros E Hty Hw Hmark.
  pose proof (apply_pending_change_stages env action_id nginx_container_name
                w a w1 result E Hty Hw) as Happly.
  rewrite Hmark in Happly. split; [exact Happly|].
  unfold exec. rewrite Happly. simpl.
  destruct (issues_write_remote_file_content env (file_path a) (content a)
              (with_table (delete action_id (_pending_actions w)) w))
    as (d & Hd & F).
  unfold exec in Hd. rewrite Hw in Hd. simpl in Hd.
  exists d. split; [exact Hd|].
  eapply Forall_impl; [exact F|].
  intros ev Hev. eapply write_calls_not_docker, Hev.
Qed.

(** The move-failed text is never the write-failed text. *)
Lemma move_failed_is_not_write_failed (result remote_path e : str) :
  py "Error moving temporary file: " ++ result
  <> py "Error writing file " ++ remote_path ++ py ": " ++ e.
Proof. intros H. vm_compute in H. discriminate H. Qed.

Lemma bind_ok {A B} (m : M A) (k : A -> M B) w w' a :
  m w = (w', Ok a) -> bind m k w = k a w'.
Proof. intros H. unfold bind. rewrite H. reflexivity. Qed.

Lemma attempt_eq {A} (m : M A) w w' r :
  m w = (w', r) -> attempt m w = (w', Ok r).
Proof. intros H. unfold attempt. rewrite H. reflexivity. Qed.

Lemma call_ok env ev w :
  raises env (events w ++ [ev]) = None ->
  call env ev w
  = (mkWorld (_pending_actions w) (draws w) (events w ++ [ev]), Ok tt).
Proof. intros H. unfold call. simpl. rewrite H. reflexivity. Qed.

Lemma get_ssh_client_ok env w :
  raises env (events w ++ [Connect]) = None ->
  _get_ssh_client env w
  = (mkWorld (_pending_actions w) (draws w) (events w ++ [Connect]), Ok tt).
Proof.
  intros H. unfold _get_ssh_client, try_except.
  erewrite bind_ok; [|apply attempt_eq, call_ok, H]. reflexivity.
Qed.

(** The commit, step by step, when the SFTP session goes through: the
    content is written to [/tmp/<basename>.tmp_<hex of this call's UUID>],
    one [sudo mv] is handed to [_run_remote_command], and its answer decides:
    with ["Error"] in it, an [rm] of the temporary path is run, its answer
    dropped, and the move-failed text returned; without, the success text. *)
Lemma write_remote_file_content_steps env remote_path content w :
  let u := Uuid.uuid4_int (urandom env (draws w)) in
  let tmp := temp_path remote_path u in
  let w1 := mkWorld (_pending_actions w) (S (draws w))
              (events w ++ sftp_phase remote_path content u) in
  goes_through env (events w) (sftp_phase remote_path content u) ->
  tmp = py "/tmp/" ++ basename remote_path ++ py ".tmp_" ++ Uuid.hex u /\
  _write_remote_file_content env remote_path content w =
  match _run_remote_command env (move_command tmp remote_path) None w1 with
  | (w2, Ok result) =>
      if str_in (py "Error") result
      then (exec (_run_remote_command env (py "rm " ++ tmp) None) w2,
            Ok (py "Error moving temporary file: " ++ result))
      else (w2, Ok (py "Successfully updated " ++ remote_path ++ py "."))
  | (w2, Raise e) =>
      (w2, Ok (py "Error writing file " ++ remote_path ++ py ": " ++ e))
  end.
Proof.
  cbv zeta. intros Hgo. split; [reflexivity|].
  set (u := Uuid.uuid4_int (urandom env (draws w))) in *.
  set (tmp := temp_path remote_path u) in *.
  assert (forall n, 0 < n <= 6 ->
            raises env (events w ++ take n (sftp_phase remote_path content u))
            = None) as H
    by (intros n Hn; apply Hgo; simpl; lia).
  pose proof (H 1 ltac:(lia)) as H1. pose proof (H 2 ltac:(lia)) as H2.
  pose proof (H 3 ltac:(lia)) as H3. pose proof (H 4 ltac:(lia)) as H4.
  pose proof (H 5 ltac:(lia)) as H5. pose proof (H 6 ltac:(lia)) as H6.
  clear H Hgo. unfold sftp_phase in *. fold tmp in H3, H4, H5, H6.
  cbn [take] in H1, H2, H3, H4, H5, H6.
  unfold _write_remote_file_content, try_except.
  unfold bind at 1. unfold attempt at 1.
  erewrite bind_ok; [|apply get_ssh_client_ok, H1].
  erewrite bind_ok;
    [|apply call_ok; cbn [events]; rewrite <- app_assoc; exact H2].
  erewrite bind_ok; [|reflexivity]. fold u. fold tmp.
  erewrite bind_ok.
  2:{ unfold with_open.
      erewrite bind_ok;
        [|apply call_ok; cbn [events]; rewrite <- !app_assoc; exact H3].
      erewrite bind_ok.
      2:{ apply attempt_eq, call_ok. cbn [events]. rewrite <- !app_assoc.
          exact H4. }
      erewrite bind_ok.
      2:{ apply attempt_eq, call_ok. cbn [events]. rewrite <- !app_assoc.
          exact H5. }
      reflexivity. }
  erewrite bind_ok;
    [|apply call_ok; cbn [events]; rewrite <- !app_assoc; exact H6].
  cbn [events _pending_actions draws]. rewrite <- !app_assoc. cbn [app].
  subst tmp u. unfold bind at 1.
  destruct (_run_remote_command env (move_command _ remote_path) None _)
    as [w2 [result|e]]; [|reflexivity].
  destruct (str_in (py "Error") result); [|reflexivity].
  unfold bind at 1. unfold exec.
  destruct (returns_run_remote_command env
              (py "rm " ++ temp_path remote_path
                 (Uuid.uuid4_int (urandom env (draws w)))) None w2) as [s Hs].
  unfold outcome in Hs.
  destruct (_run_remote_command env (py "rm " ++ _) None w2) as [w3 r].
  simpl in Hs. subst r. reflexivity.
Qed.

(** * Further properties of the module *)

(** ** Path validation *)

Lemma str_in_false_iff (sub s : str) :
  str_in sub s = false <-> forall a b, s <> a ++ sub ++ b.
Proof.
  split.
  - intros H a b ->. rewrite str_in_intro in H. discriminate.
  - intros H. destruct (str_in sub s) eqn:E; [|reflexivity].
    apply str_in_inv in E as (a & b & ->). exfalso. apply (H a b). reflexivity.
Qed.

Lemma str_in_char_false_iff (c : N) (s : str) :
  str_in [c] s = false <-> c ∉ s.
Proof.
  rewrite str_in_false_iff. split.
  - intros H Hin. apply list_elem_of_split in Hin as (a & b & ->).
    apply (H a b). reflexivity.
  - intros H a b ->. apply H. apply elem_of_app. right. left.
Qed.

(** X1.  [_validate_path] accepts a path exactly when the path contains
    neither [..] nor a NUL character and, if a non-empty list of prefixes is
    given, starts with one of them.  Without a list, or with an empty one,
    the prefix of the path is not restricted. *)
Theorem validate_path_accepts path allowed_prefixes :
  _validate_path path allowed_prefixes = true <->
  (forall a b, path <> a ++ py ".." ++ b) /\
  (0%N ∉ path) /\
  match allowed_prefixes with
  | None | Some [] => True
  | Some ps => exists p rest, In p ps /\ path = p ++ rest
  end.
Proof.
  unfold _validate_path.
  rewrite <- str_in_false_iff, <- str_in_char_false_iff.
  destruct (str_in (py "..") path); [simpl; intuition discriminate|].
  destruct (str_in [0%N] path); [simpl; intuition discriminate|].
  cbn [orb]. destruct allowed_prefixes as [[|p ps]|]; [tauto| |tauto].
  destruct (existsb (fun p0 => startswith path p0) (p :: ps)) eqn:E; cbn [negb].
  - apply existsb_exists in E as (q & Hq & Hs).
    apply startswith_inv in Hs as [rest Hrest].
    split; [|reflexivity]. intros _. repeat split. exists q, rest. auto.
  - split; [discriminate|]. intros (_ & _ & q & rest & Hq & Hrest).
    assert (existsb (fun p0 => startswith path p0) (p :: ps) = true) as E'.
    { apply existsb_exists. exists q. split; [exact Hq|].
      rewrite Hrest. apply startswith_app. }
    congruence.
Qed.

(** ** One remote command: the calls it makes *)

Lemma call_raise env ev w e :
  raises env (events w ++ [ev]) = Some e ->
  call env ev w
  = (mkWorld (_pending_actions w) (draws w) (events w ++ [ev]), Raise e).
Proof. intros H. unfold call. simpl. rewrite H. reflexivity. Qed.

Lemma bind_raise {A B} (m : M A) (k : A -> M B) w w' e :
  m w = (w', Raise e) -> bind m k w = (w', Raise e).
Proof. intros H. unfold bind. rewrite H. reflexivity. Qed.

Lemma try_except_raise {A} (body : M A) (handler : str -> M A) w w' e :
  body w = (w', Raise e) -> try_except body handler w = handler e w'.
Proof. intros H. unfold try_except, bind, attempt. rewrite H. reflexivity. Qed.

Lemma try_except_ok {A} (body : M A) (handler : str -> M A) w w' a :
  body w = (w', Ok a) -> try_except body handler w = (w', Ok a).
Proof. intros H. unfold try_except, bind, attempt. rewrite H. reflexivity. Qed.

(** X2.  When the connection is made and [exec_command] (or the reading of
    its streams) raises, [_run_remote_command] answers with the failure text
    naming the command as executed, with its [cd] prefix if a working
    directory was given, and never closes the connection: the log ends with
    the command. *)
Theorem run_remote_command_exec_raises env command working_dir w e :
  let c := effective_command command working_dir in
  raises env (events w ++ [Connect]) = None ->
  raises env (events w ++ [Connect; ExecCommand c]) = Some e ->
  _run_remote_command env command working_dir w
  = (mkWorld (_pending_actions w) (draws w)
       (events w ++ [Connect; ExecCommand c]),
     Ok (py "Failed to run command '" ++ c ++ py "': " ++ e)).
Proof.
  cbv zeta. intros Hc Hx. unfold _run_remote_command.
  erewrite bind_ok; [|apply attempt_eq, get_ssh_client_ok, Hc].
  cbv iota. erewrite try_except_raise; cycle 1.
  { apply bind_raise. unfold exec_command. apply bind_raise.
    apply call_raise. cbn [events]. rewrite <- app_assoc. exact Hx. }
  cbn [events]. rewrite <- app_assoc. reflexivity.
Qed.

Lemma run_remote_command_exec_raises_witness :
  _run_remote_command (Scenario.fails_at 2 (py "Channel closed"))
    (py "docker-compose ps") (Some (py "/opt/iot-stack")) Scenario.w0
  = (mkWorld ∅ 0
       [Connect; ExecCommand (py "cd /opt/iot-stack && docker-compose ps")],
     Ok (py "Failed to run command 'cd /opt/iot-stack && docker-compose ps': Channel closed")).
Proof.
  apply (run_remote_command_exec_raises
           (Scenario.fails_at 2 (py "Channel closed"))
           (py "docker-compose ps") (Some (py "/opt/iot-stack")) Scenario.w0
           (py "Channel closed")); reflexivity.
Defined.

(** X3.  When the command has been executed and closing the connection
    raises, what the command printed is dropped: the answer is the failure
    text carrying the message of the close. *)
Theorem run_remote_command_close_raises env command working_dir w e :
  let c := effective_command command working_dir in
  raises env (events w ++ [Connect]) = None ->
  raises env (events w ++ [Connect; ExecCommand c]) = None ->
  raises env (events w ++ [Connect; ExecCommand c; ClientClose]) = Some e ->
  _run_remote_command env command working_dir w
  = (mkWorld (_pending_actions w) (draws w)
       (events w ++ [Connect; ExecCommand c; ClientClose]),
     Ok (py "Failed to run command '" ++ c ++ py "': " ++ e)).
Proof.
  cbv zeta. intros Hc Hx Hcl. unfold _run_remote_command.
  erewrite bind_ok; [|apply attempt_eq, get_ssh_client_ok, Hc].
  cbv iota. erewrite try_except_raise; cycle 1.
  { unfold exec_command.
    erewrite bind_ok; cycle 1.
    { erewrite bind_ok; cycle 1.
      - apply call_ok. cbn [events]. rewrite <- app_assoc. exact Hx.
      - reflexivity. }
    apply bind_raise. apply call_raise. cbn [events].
    rewrite <- !app_assoc. exact Hcl. }
  cbn [events]. rewrite <- !app_assoc. reflexivity.
Qed.

Lemma run_remote_command_close_raises_witness :
  _run_remote_command (Scenario.fails_at 3 (py "Socket is closed"))
    (py "sudo docker exec nginx nginx -t") None Scenario.w0
  = (mkWorld ∅ 0
       [Connect; ExecCommand (py "sudo docker exec nginx nginx -t"); ClientClose],
     Ok (py "Failed to run command 'sudo docker exec nginx nginx -t': Socket is closed")).
Proof.
  apply (run_remote_command_close_raises
           (Scenario.fails_at 3 (py "Socket is closed"))
           (py "sudo docker exec nginx nginx -t") None Scenario.w0
           (py "Socket is closed")); reflexivity.
Defined.

(** One run, by the first of its three calls that raises, if any. *)
Lemma run_remote_command_eq env command working_dir w :
  let c := effective_command command working_dir in
  let at_ (d : list Event) :=
    mkWorld (_pending_actions w) (draws w) (events w ++ d) in
  _run_remote_command env command working_dir w =
  match raises env (events w ++ [Connect]) with
  | Some e =>
      (at_ [Connect],
       Ok (run_failure command (py "Failed to establish SSH connection: " ++ e)))
  | None =>
      match raises env (events w ++ [Connect; ExecCommand c]) with
      | Some e => (at_ [Connect; ExecCommand c], Ok (run_failure c e))
      | None =>
          match raises env (events w ++ [Connect; ExecCommand c; ClientClose]) with
          | Some e =>
              (at_ [Connect; ExecCommand c; ClientClose], Ok (run_failure c e))
          | None =>
              (at_ [Connect; ExecCommand c; ClientClose],
               Ok (clean_answer env (events w) c))
          end
      end
  end.
Proof.
  cbv zeta.
  destruct (raises env (events w ++ [Connect])) as [e|] eqn:Hc.
  { unfold _run_remote_command, bind, attempt.
    rewrite (get_ssh_client_refused env w e Hc). reflexivity. }
  destruct (raises env (events w ++ [Connect; ExecCommand _])) as [e|] eqn:Hx.
  { unfold _run_remote_command.
    erewrite bind_ok; [|apply attempt_eq, get_ssh_client_ok, Hc].
    cbv iota. erewrite try_except_raise; cycle 1.
    { apply bind_raise. unfold exec_command. apply bind_raise.
      apply call_raise. cbn [events]. rewrite <- app_assoc. exact Hx. }
    cbn [events]. rewrite <- app_assoc. reflexivity. }
  destruct (raises env (events w ++ [Connect; ExecCommand _; ClientClose]))
    as [e|] eqn:Hcl.
  { unfold _run_remote_command.
    erewrite bind_ok; [|apply attempt_eq, get_ssh_client_ok, Hc].
    cbv iota. erewrite try_except_raise; cycle 1.
    { unfold exec_command.
      erewrite bind_ok; cycle 1.
      { erewrite bind_ok; cycle 1.
        - apply call_ok. cbn [events]. rewrite <- app_assoc. exact Hx.
        - reflexivity. }
      apply bind_raise. apply call_raise. cbn [events].
      rewrite <- !app_assoc. exact Hcl. }
    cbn [events]. rewrite <- !app_assoc. reflexivity. }
  apply (run_remote_command_clean env command working_dir w).
  repeat split; assumption.
Qed.

(** What one run adds to the log. *)
Lemma run_remote_command_delta env command working_dir w :
  let c := effective_command command working_dir in
  exists d,
    events (exec (_run_remote_command env command working_dir) w)
      = events w ++ d /\
    d `prefix_of` [Connect; ExecCommand c; ClientClose] /\
    [Connect] `prefix_of` d.
Proof.
  cbv zeta. unfold exec. rewrite run_remote_command_eq. cbv zeta.
  destruct (raises env (events w ++ [Connect])) as [e|].
  { cbn. eexists. split; [reflexivity|]. split.
    - exists [ExecCommand (effective_command command working_dir); ClientClose].
      reflexivity.
    - exists []. reflexivity. }
  destruct (raises env (events w ++ [Connect; ExecCommand _])) as [e|].
  { cbn. eexists. split; [reflexivity|]. split.
    - exists [ClientClose]. reflexivity.
    - eexists. reflexivity. }
  destruct (raises env (events w ++ [Connect; ExecCommand _; ClientClose]))
    as [e|]; cbn; (eexists; split; [reflexivity|]; split;
      [exists []; reflexivity | eexists; reflexivity]).
Qed.

Lemma run_remote_command_frame env command working_dir w :
  _pending_actions (exec (_run_remote_command env command working_dir) w)
    = _pending_actions w /\
  draws (exec (_run_remote_command env command working_dir) w) = draws w.
Proof.
  unfold exec. rewrite run_remote_command_eq. cbv zeta.
  repeat destruct (raises env _); split; reflexivity.
Qed.


(** ** Reading a remote file *)

(** X5.  When none of its seven calls raises, [_read_remote_file_content]
    opens the path exactly as given, in mode [r], returns the decoded content
    as read, without stripping it, and closes the file, the SFTP session and
    the connection, in this order. *)
Theorem read_remote_file_content_ok env remote_path w :
  goes_through env (events w) (read_phase remote_path) ->
  _read_remote_file_content env remote_path w
  = (mkWorld (_pending_actions w) (draws w)
       (events w ++ [Connect; OpenSftp; SftpOpen remote_path (py "r");
                     FileRead; FileClose; SftpClose; ClientClose]),
     Ok (file_data env
           (events w ++ [Connect; OpenSftp; SftpOpen remote_path (py "r");
                         FileRead]))).
Proof.
  intros Hgo.
  assert (forall n, 0 < n <= 7 ->
            raises env (events w ++ take n (read_phase remote_path)) = None)
    as H by (intros n Hn; apply Hgo; simpl; lia).
  pose proof (H 1 ltac:(lia)) as H1. pose proof (H 2 ltac:(lia)) as H2.
  pose proof (H 3 ltac:(lia)) as H3. pose proof (H 4 ltac:(lia)) as H4.
  pose proof (H 5 ltac:(lia)) as H5. pose proof (H 6 ltac:(lia)) as H6.
  pose proof (H 7 ltac:(lia)) as H7.
  clear H Hgo. unfold read_phase in *.
  cbn [take] in H1, H2, H3, H4, H5, H6, H7.
  unfold _read_remote_file_content.
  erewrite try_except_ok; [reflexivity|].
  erewrite bind_ok; [|apply get_ssh_client_ok, H1].
  erewrite bind_ok;
    [|apply call_ok; cbn [events]; rewrite <- app_assoc; exact H2].
  erewrite bind_ok; cycle 1.
  { unfold with_open.
    erewrite bind_ok;
      [|apply call_ok; cbn [events]; rewrite <- !app_assoc; exact H3].
    erewrite bind_ok; cycle 1.
    { apply attempt_eq. unfold file_read.
      erewrite bind_ok;
        [|apply call_ok; cbn [events]; rewrite <- !app_assoc; exact H4].
      reflexivity. }
    erewrite bind_ok; cycle 1.
    { apply attempt_eq, call_ok. cbn [events]. rewrite <- !app_assoc.
      exact H5. }
    reflexivity. }
  erewrite bind_ok;
    [|apply call_ok; cbn [events]; rewrite <- !app_assoc; exact H6].
  erewrite bind_ok;
    [|apply call_ok; cbn [events]; rewrite <- !app_assoc; exact H7].
  cbn [events _pending_actions draws]. rewrite <- !app_assoc. reflexivity.
Qed.

Lemma read_remote_file_content_ok_witness :
  _read_remote_file_content Scenario.healthy Scenario.conf Scenario.w0
  = (mkWorld ∅ 0
       [Connect; OpenSftp; SftpOpen Scenario.conf (py "r");
        FileRead; FileClose; SftpClose; ClientClose],
     Ok (file_data Scenario.healthy
           [Connect; OpenSftp; SftpOpen Scenario.conf (py "r"); FileRead])).
Proof.
  apply (read_remote_file_content_ok Scenario.healthy Scenario.conf Scenario.w0).
  intros n _. reflexivity.
Defined.

(** X6.  When [sftp.open] raises, as for a file that does not exist,
    [_read_remote_file_content] answers with the read-error text naming the
    path and carrying the message, and makes no further call: neither the
    SFTP session nor the connection is closed. *)
Theorem read_remote_file_content_open_raises env remote_path w e :
  raises env (events w ++ [Connect]) = None ->
  raises env (events w ++ [Connect; OpenSftp]) = None ->
  raises env (events w ++ [Connect; OpenSftp; SftpOpen remote_path (py "r")])
    = Some e ->
  _read_remote_file_content env remote_path w
  = (mkWorld (_pending_actions w) (draws w)
       (events w ++ [Connect; OpenSftp; SftpOpen remote_path (py "r")]),
     Ok (py "Error reading file '" ++ remote_path ++ py "': " ++ e)).
Proof.
  intros H1 H2 H3. unfold _read_remote_file_content.
  erewrite try_except_raise; cycle 1.
  { erewrite bind_ok; [|apply get_ssh_client_ok, H1].
    erewrite bind_ok;
      [|apply call_ok; cbn [events]; rewrite <- app_assoc; exact H2].
    apply bind_raise. unfold with_open. apply bind_raise.
    apply call_raise. cbn [events]. rewrite <- !app_assoc. exact H3. }
  cbn [events]. rewrite <- !app_assoc. reflexivity.
Qed.

Lemma read_remote_file_content_open_raises_witness :
  _read_remote_file_content (Scenario.fails_at 3 (py "[Errno 2] No such file"))
    Scenario.conf Scenario.w0
  = (mkWorld ∅ 0 [Connect; OpenSftp; SftpOpen Scenario.conf (py "r")],
     Ok (py "Error reading file '/etc/svc/app.conf': [Errno 2] No such file")).
Proof.
  apply (read_remote_file_content_open_raises
           (Scenario.fails_at 3 (py "[Errno 2] No such file"))
           Scenario.conf Scenario.w0 (py "[Errno 2] No such file"));
    reflexivity.
Defined.

(** X7.  When the file is open and reading or decoding it raises, leaving
    the [with] block still closes the file; the message that comes back is
    that of the read, unless closing the file raises too, in which case it is
    that of the close.  The SFTP session and the connection stay open. *)
Theorem read_remote_file_content_read_raises env remote_path w e :
  let opened := [Connect; OpenSftp; SftpOpen remote_path (py "r")] in
  raises env (events w ++ [Connect]) = None ->
  raises env (events w ++ [Connect; OpenSftp]) = None ->
  raises env (events w ++ opened) = None ->
  raises env (events w ++ opened ++ [FileRead]) = Some e ->
  _read_remote_file_content env remote_path w
  = (mkWorld (_pending_actions w) (draws w)
       (events w ++ opened ++ [FileRead; FileClose]),
     Ok (py "Error reading file '" ++ remote_path ++ py "': " ++
         match raises env (events w ++ opened ++ [FileRead; FileClose]) with
         | Some e' => e'
         | None => e
         end)).
Proof.
  cbv zeta. cbn [app]. intros H1 H2 H3 H4. unfold _read_remote_file_content.
  destruct (raises env (events w ++ [Connect; OpenSftp; SftpOpen remote_path
                                       (py "r"); FileRead; FileClose]))
    as [e'|] eqn:H5.
  - erewrite try_except_raise; cycle 1.
    { erewrite bind_ok; [|apply get_ssh_client_ok, H1].
      erewrite bind_ok;
        [|apply call_ok; cbn [events]; rewrite <- app_assoc; exact H2].
      apply bind_raise. unfold with_open.
      erewrite bind_ok;
        [|apply call_ok; cbn [events]; rewrite <- !app_assoc; exact H3].
      erewrite bind_ok; cycle 1.
      { apply attempt_eq. unfold file_read. apply bind_raise.
        apply call_raise. cbn [events]. rewrite <- !app_assoc. exact H4. }
      erewrite bind_ok; cycle 1.
      { apply attempt_eq, call_raise. cbn [events]. rewrite <- !app_assoc.
        exact H5. }
      reflexivity. }
    cbn [events]. rewrite <- !app_assoc. reflexivity.
  - erewrite try_except_raise; cycle 1.
    { erewrite bind_ok; [|apply get_ssh_client_ok, H1].
      erewrite bind_ok;
        [|apply call_ok; cbn [events]; rewrite <- app_assoc; exact H2].
      apply bind_raise. unfold with_open.
      erewrite bind_ok;
        [|apply call_ok; cbn [events]; rewrite <- !app_assoc; exact H3].
      erewrite bind_ok; cycle 1.
      { apply attempt_eq. unfold file_read. apply bind_raise.
        apply call_raise. cbn [events]. rewrite <- !app_assoc. exact H4. }
      erewrite bind_ok; cycle 1.
      { apply attempt_eq, call_ok. cbn [events]. rewrite <- !app_assoc.
        exact H5. }
      reflexivity. }
    cbn [events]. rewrite <- !app_assoc. reflexivity.
Qed.

Lemma read_remote_file_content_read_raises_witness :
  _read_remote_file_content
    (Scenario.fails_at 4 (py "'utf-8' codec can't decode byte 0xff"))
    Scenario.conf Scenario.w0
  = (mkWorld ∅ 0
       [Connect; OpenSftp; SftpOpen Scenario.conf (py "r"); FileRead; FileClose],
     Ok (py "Error reading file '/etc/svc/app.conf': 'utf-8' codec can't decode byte 0xff")).
Proof.
  apply (read_remote_file_content_read_raises
           (Scenario.fails_at 4 (py "'utf-8' codec can't decode byte 0xff"))
           Scenario.conf Scenario.w0
           (py "'utf-8' codec can't decode byte 0xff")); reflexivity.
Defined.

(** ** Generated names: the temporary path and the ids *)

Lemma basename_from_no_slash (acc p : str) :
  47%N ∉ acc -> 47%N ∉ basename_from acc p.
Proof.
  revert acc. induction p as [|c p IH]; intros acc Hacc; simpl; [exact Hacc|].
  destruct (c =? 47)%N eqn:E.
  - apply IH. apply not_elem_of_nil.
  - apply IH. intros Hin. apply elem_of_app in Hin as [Hin|Hin]; [auto|].
    apply list_elem_of_singleton in Hin. apply N.eqb_neq in E. congruence.
Qed.

Lemma hex_digit_is_hex (d : N) : (d < 16)%N -> is_hex_digit (Uuid.hex_digit d).
Proof.
  intros H. unfold is_hex_digit, Uuid.hex_digit.
  destruct (d <? 10)%N eqn:E; [apply N.ltb_lt in E | apply N.ltb_ge in E]; lia.
Qed.

Lemma hex_fixed_digits (width : nat) (n : N) :
  Forall is_hex_digit (Uuid.hex_fixed width n).
Proof.
  revert n. induction width as [|width IH]; intros n; simpl; [constructor|].
  apply Forall_app. split; [apply IH|].
  constructor; [|constructor].
  apply hex_digit_is_hex. apply N.mod_lt. discriminate.
Qed.

Lemma hex_fixed_length (width : nat) (n : N) :
  length (Uuid.hex_fixed width n) = width.
Proof.
  revert n. induction width as [|width IH]; intros n; simpl; [reflexivity|].
  rewrite length_app, IH. simpl. lia.
Qed.

(** X8.  Whatever the target path, the temporary path of line 80 names a
    file directly in [/tmp]: it is [/tmp/] followed by a non-empty name
    without any slash, made of the target's basename, [.tmp_] and the
    thirty-two hexadecimal digits of the UUID. *)
Theorem temp_path_in_tmp remote_path u :
  exists name,
    temp_path remote_path u = py "/tmp/" ++ name /\
    (47%N ∉ name) /\
    name = basename remote_path ++ py ".tmp_" ++ Uuid.hex u /\
    length (Uuid.hex u) = 32 /\
    Forall is_hex_digit (Uuid.hex u).
Proof.
  exists (basename remote_path ++ py ".tmp_" ++ Uuid.hex u).
  split; [reflexivity|]. split; [|split; [reflexivity|split]].
  - intros Hin. apply elem_of_app in Hin as [Hin|Hin].
    { revert Hin. apply basename_from_no_slash, not_elem_of_nil. }
    apply elem_of_app in Hin as [Hin|Hin].
    { vm_compute in Hin. repeat (apply elem_of_cons in Hin as [Hin|Hin];
        [discriminate|]). apply elem_of_nil in Hin. exact Hin. }
    pose proof (hex_fixed_digits 32 u) as F. rewrite Forall_forall in F.
    specialize (F _ Hin). unfold is_hex_digit in F. lia.
  - apply hex_fixed_length.
  - apply hex_fixed_digits.
Qed.

Lemma hex_digit_inj (a b : N) :
  (a < 16)%N -> (b < 16)%N -> Uuid.hex_digit a = Uuid.hex_digit b -> a = b.
Proof.
  unfold Uuid.hex_digit. intros Ha Hb.
  destruct (a <? 10)%N eqn:Ea; destruct (b <? 10)%N eqn:Eb;
    try apply N.ltb_lt in Ea; try apply N.ltb_ge in Ea;
    try apply N.ltb_lt in Eb; try apply N.ltb_ge in Eb; lia.
Qed.

Lemma hex_fixed_inj (width : nat) (a b : N) :
  Uuid.hex_fixed width a = Uuid.hex_fixed width b ->
  (a mod 16 ^ N.of_nat width = b mod 16 ^ N.of_nat width)%N.
Proof.
  revert a b. induction width as [|width IH]; intros a b H.
  - simpl. rewrite !N.mod_1_r. reflexivity.
  - simpl in H. apply app_inj_tail in H as [Hhi Hlo].
    apply IH in Hhi.
    apply hex_digit_inj in Hlo; try (apply N.mod_lt; discriminate).
    rewrite Nat2N.inj_succ, N.pow_succ_r'.
    rewrite !N.Div0.mod_mul_r. rewrite Hhi, Hlo. reflexivity.
Qed.

Lemma lt_pow2_128 (x : N) : (x < 2 ^ 128)%N <-> (N.log2 x < 128)%N.
Proof.
  destruct (N.eq_dec x 0%N) as [->|Hx].
  - split; intros _; [reflexivity | reflexivity].
  - apply N.log2_lt_pow2. lia.
Qed.

Lemma uuid4_int_lt (r : N) : (Uuid.uuid4_int r < 2 ^ 128)%N.
Proof.
  unfold Uuid.uuid4_int.
  assert (forall a b, (a < 2 ^ 128 -> b < 2 ^ 128 -> N.lor a b < 2 ^ 128)%N)
    as Hlor.
  { intros a b Ha Hb. apply lt_pow2_128. rewrite N.log2_lor.
    apply lt_pow2_128 in Ha. apply lt_pow2_128 in Hb. lia. }
  assert (forall a b, (a < 2 ^ 128 -> N.ldiff a b < 2 ^ 128)%N) as Hdiff.
  { intros a b Ha. pose proof (N.ldiff_le_l a b). lia. }
  apply Hlor; [|reflexivity].
  apply Hdiff. apply Hlor; [|reflexivity].
  apply Hdiff. apply N.mod_lt. discriminate.
Qed.

Lemma hex_inj (u v : N) :
  (u < 2 ^ 128)%N -> (v < 2 ^ 128)%N -> Uuid.hex u = Uuid.hex v -> u = v.
Proof.
  intros Hu Hv H. apply (hex_fixed_inj 32) in H.
  change (16 ^ N.of_nat 32)%N with (2 ^ 128)%N in H.
  rewrite !N.mod_small in H by assumption. exact H.
Qed.

(** The hyphens are the only characters [str] adds to the digits. *)
Lemma to_str_digits (u : N) :
  filter (fun c => c <> 45%N) (Uuid.to_str u) = Uuid.hex u.
Proof.
  unfold Uuid.to_str.
  assert (forall l, Forall is_hex_digit l ->
            filter (fun c => c <> 45%N) l = l) as Hkeep.
  { intros l F. induction F as [|c l Hc _ IH]; [reflexivity|].
    rewrite filter_cons_True by (unfold is_hex_digit in Hc; lia).
    rewrite IH. reflexivity. }
  pose proof (hex_fixed_digits 32 u) as F. fold (Uuid.hex u) in F.
  assert (forall n l, Forall is_hex_digit l -> Forall is_hex_digit (take n l))
    as Ftake by (intros; apply Forall_take; assumption).
  assert (forall n l, Forall is_hex_digit l -> Forall is_hex_digit (drop n l))
    as Fdrop by (intros; apply Forall_drop; assumption).
  cbv zeta. change firstn with (@take N). change skipn with (@drop N).
  unfold str. rewrite !filter_app.
  assert (filter (fun c => c <> 45%N) (py "-" : list N) = []) as Hhyphen
    by (vm_compute; reflexivity).
  rewrite !Hhyphen. cbn [app].
  rewrite !Hkeep by (repeat first [apply Ftake | apply Fdrop]; exact F).
  replace (drop 12 (Uuid.hex u)) with (drop 4 (drop 8 (Uuid.hex u)))
    by (rewrite drop_drop; reflexivity).
  replace (drop 16 (Uuid.hex u)) with (drop 4 (drop 4 (drop 8 (Uuid.hex u))))
    by (rewrite !drop_drop; reflexivity).
  replace (drop 20 (Uuid.hex u))
    with (drop 4 (drop 4 (drop 4 (drop 8 (Uuid.hex u)))))
    by (rewrite !drop_drop; reflexivity).
  rewrite !take_drop. reflexivity.
Qed.

Lemma to_str_inj (u v : N) :
  (u < 2 ^ 128)%N -> (v < 2 ^ 128)%N -> Uuid.to_str u = Uuid.to_str v -> u = v.
Proof.
  intros Hu Hv H. apply hex_inj; [assumption..|].
  rewrite <- !to_str_digits, H. reflexivity.
Qed.

Lemma to_str_length (u : N) : length (Uuid.to_str u) = 36.
Proof.
  unfold Uuid.to_str. cbv zeta.
  change firstn with (@take N). change skipn with (@drop N).
  rewrite !length_app, !length_take, !length_drop.
  unfold Uuid.hex. rewrite hex_fixed_length. reflexivity.
Qed.

(** X9.  Names generated from different UUIDs differ: the ids of two
    proposals, which are thirty-six characters long, and the temporary paths
    of two commits to the same target. *)
Theorem distinct_uuids_give_distinct_names r1 r2 remote_path :
  Uuid.uuid4_int r1 <> Uuid.uuid4_int r2 ->
  Uuid.to_str (Uuid.uuid4_int r1) <> Uuid.to_str (Uuid.uuid4_int r2) /\
  temp_path remote_path (Uuid.uuid4_int r1)
    <> temp_path remote_path (Uuid.uuid4_int r2) /\
  length (Uuid.to_str (Uuid.uuid4_int r1)) = 36.
Proof.
  intros Hne. split; [|split].
  - intros H. apply Hne. apply to_str_inj; [apply uuid4_int_lt..|exact H].
  - intros H. apply Hne. unfold temp_path in H.
    apply app_inv_head in H. apply app_inv_head in H. apply app_inv_head in H.
    apply hex_inj; [apply uuid4_int_lt..|exact H].
  - apply to_str_length.
Qed.

Lemma distinct_uuids_give_distinct_names_witness :
  Uuid.to_str (Uuid.uuid4_int 0) <> Uuid.to_str (Uuid.uuid4_int 1) /\
  temp_path Scenario.conf (Uuid.uuid4_int 0)
    <> temp_path Scenario.conf (Uuid.uuid4_int 1) /\
  length (Uuid.to_str (Uuid.uuid4_int 0)) = 36.
Proof.
  apply (distinct_uuids_give_distinct_names 0 1 Scenario.conf).
  vm_compute. discriminate.
Defined.

(** X10.  Two proposals in a row.  When the two UUIDs drawn differ, both
    changes are pending afterwards, each under its own id.  When the random
    source repeats itself, the second proposal takes the place of the first
    under the one id, and nothing tells the caller. *)
Theorem two_proposals env c1 p1 c2 p2 w :
  let u1 := Uuid.uuid4_int (urandom env (draws w)) in
  let u2 := Uuid.uuid4_int (urandom env (S (draws w))) in
  let e1 := mkAction (py "nginx_config_update") p1 c1 in
  let e2 := mkAction (py "nginx_config_update") p2 c2 in
  let w2 := exec (propose_nginx_config_update env c2 p2)
              (exec (propose_nginx_config_update env c1 p1) w) in
  (u1 <> u2 ->
   _pending_actions w2 !! Uuid.to_str u1 = Some e1 /\
   _pending_actions w2 !! Uuid.to_str u2 = Some e2) /\
  (u1 = u2 ->
   _pending_actions w2 = <[Uuid.to_str u1 := e2]> (_pending_actions w) /\
   outcome (propose_nginx_config_update env c2 p2)
     (exec (propose_nginx_config_update env c1 p1) w)
   = outcome (propose_nginx_config_update env c1 p1) w).
Proof.
  cbv zeta. unfold exec, outcome. rewrite !propose_nginx_config_update_eq.
  cbn [fst snd draws _pending_actions]. split.
  - intros Hne. split; [|apply lookup_insert_eq].
    rewrite lookup_insert_ne; [apply lookup_insert_eq|].
    intros H. apply Hne. symmetry.
    apply to_str_inj; [apply uuid4_int_lt..|exact H].
  - intros <-. split; [apply insert_insert_eq | reflexivity].
Qed.

Lemma two_proposals_witness :
  (let w2 := exec (propose_nginx_config_update Scenario.healthy (py "b") Scenario.conf)
               (exec (propose_nginx_config_update Scenario.healthy (py "a")
                        Scenario.conf) Scenario.w0) in
   _pending_actions w2 !! Uuid.to_str (Uuid.uuid4_int 0)
     = Some (mkAction (py "nginx_config_update") Scenario.conf (py "a")) /\
   _pending_actions w2 !! Uuid.to_str (Uuid.uuid4_int 1)
     = Some (mkAction (py "nginx_config_update") Scenario.conf (py "b"))) /\
  (let w2 := exec (propose_nginx_config_update Scenario.stuck_random (py "b")
                     Scenario.conf)
               (exec (propose_nginx_config_update Scenario.stuck_random (py "a")
                        Scenario.conf) Scenario.w0) in
   _pending_actions w2
   = <[Uuid.to_str (Uuid.uuid4_int 7) :=
         mkAction (py "nginx_config_update") Scenario.conf (py "b")]> ∅).
Proof.
  split.
  - apply (two_proposals Scenario.healthy (py "a") Scenario.conf (py "b")
             Scenario.conf Scenario.w0).
    vm_compute. discriminate.
  - apply (two_proposals Scenario.stuck_random (py "a") Scenario.conf (py "b")
             Scenario.conf Scenario.w0).
    reflexivity.
Defined.

(** ** The commit: failures that are seen *)

Lemma error_report_has_Error (output error : str) :
  str_in (py "Error") (error_report output error) = true.
Proof.
  unfold error_report.
  change (py "Error executing command:")
    with ([] ++ py "Error" ++ py " executing command:").
  rewrite <- !app_assoc. apply str_in_intro.
Qed.

(** X11.  When the temporary file has been written and the move, once
    executed, is judged failed on its stderr, the move's answer is the error
    report, the commit runs an [rm] of the temporary path from the world the
    move left, and answers with the move-failed text carrying that report,
    whatever the [rm] does. *)
Theorem judged_failed_move_is_cleaned_up env remote_path content w :
  let u := Uuid.uuid4_int (urandom env (draws w)) in
  let tmp := temp_path remote_path u in
  let mv := move_command tmp remote_path in
  let w1 := mkWorld (_pending_actions w) (S (draws w))
              (events w ++ sftp_phase remote_path content u) in
  let so := streams env (events w1 ++ [Connect; ExecCommand mv]) in
  let w2 := mkWorld (_pending_actions w) (S (draws w))
              (events w1 ++ [Connect; ExecCommand mv; ClientClose]) in
  goes_through env (events w) (sftp_phase remote_path content u) ->
  runs_clean env w1 mv ->
  judged_failed (strip so.2) = true ->
  _write_remote_file_content env remote_path content w
  = (exec (_run_remote_command env (py "rm " ++ tmp) None) w2,
     Ok (py "Error moving temporary file: " ++
         error_report (strip so.1) (strip so.2))).
Proof.
  cbv zeta. intros Hgo Hclean Hfailed.
  destruct (write_remote_file_content_steps env remote_path content w Hgo)
    as [_ ->].
  rewrite (run_remote_command_clean env _ None _ Hclean).
  cbn [effective_command events _pending_actions draws].
  cbn [effective_command events] in Hfailed. rewrite Hfailed.
  rewrite error_report_has_Error. reflexivity.
Qed.

Lemma judged_failed_move_is_cleaned_up_witness :
  let tmp := temp_path Scenario.conf (Uuid.uuid4_int 0) in
  let mv := move_command tmp Scenario.conf in
  let sent := sftp_phase Scenario.conf (py "server{}") (Uuid.uuid4_int 0) in
  _write_remote_file_content Scenario.mv_denied Scenario.conf (py "server{}")
    Scenario.w0
  = (mkWorld ∅ 1
       (sent ++ [Connect; ExecCommand mv; ClientClose] ++
        [Connect; ExecCommand (py "rm " ++ tmp); ClientClose]),
     Ok (py "Error moving temporary file: " ++
         error_report []
           (py "mv: cannot create regular file: Permission denied"))).
Proof.
  cbv zeta.
  rewrite (judged_failed_move_is_cleaned_up Scenario.mv_denied Scenario.conf
             (py "server{}") Scenario.w0).
  - vm_compute. reflexivity.
  - intros n _. reflexivity.
  - repeat split.
  - vm_compute. reflexivity.
Defined.

(** X12.  When the temporary file has been opened and writing it raises, the
    file is closed and the commit answers with the write-failed text; no
    command is executed afterwards, so the temporary file is not removed and
    the target is not touched.  One UUID has been drawn. *)
Theorem failed_write_leaves_temporary_file env remote_path content w e :
  let u := Uuid.uuid4_int (urandom env (draws w)) in
  let tmp := temp_path remote_path u in
  let opened := [Connect; OpenSftp; SftpOpen tmp (py "w")] in
  raises env (events w ++ [Connect]) = None ->
  raises env (events w ++ [Connect; OpenSftp]) = None ->
  raises env (events w ++ opened) = None ->
  raises env (events w ++ opened ++ [FileWrite content]) = Some e ->
  raises env (events w ++ opened ++ [FileWrite content; FileClose]) = None ->
  _write_remote_file_content env remote_path content w
  = (mkWorld (_pending_actions w) (S (draws w))
       (events w ++ opened ++ [FileWrite content; FileClose]),
     Ok (py "Error writing file " ++ remote_path ++ py ": " ++ e)).
Proof.
  cbv zeta. cbn [app]. intros H1 H2 H3 H4 H5.
  unfold _write_remote_file_content.
  erewrite try_except_raise; cycle 1.
  { erewrite bind_ok; [|apply get_ssh_client_ok, H1].
    erewrite bind_ok;
      [|apply call_ok; cbn [events]; rewrite <- app_assoc; exact H2].
    erewrite bind_ok; [|reflexivity].
    apply bind_raise. unfold with_open.
    erewrite bind_ok;
      [|apply call_ok; cbn [events]; rewrite <- !app_assoc; exact H3].
    erewrite bind_ok; cycle 1.
    { apply attempt_eq, call_raise. cbn [events]. rewrite <- !app_assoc.
      exact H4. }
    erewrite bind_ok; cycle 1.
    { apply attempt_eq, call_ok. cbn [events]. rewrite <- !app_assoc.
      exact H5. }
    reflexivity. }
  cbn [events]. rewrite <- !app_assoc. reflexivity.
Qed.

Lemma failed_write_leaves_temporary_file_witness :
  let tmp := temp_path Scenario.conf (Uuid.uuid4_int 0) in
  _write_remote_file_content (Scenario.fails_at 4 (py "Disk quota exceeded"))
    Scenario.conf (py "server{}") Scenario.w0
  = (mkWorld ∅ 1
       [Connect; OpenSftp; SftpOpen tmp (py "w"); FileWrite (py "server{}");
        FileClose],
     Ok (py "Error writing file /etc/svc/app.conf: Disk quota exceeded")).
Proof.
  apply (failed_write_leaves_temporary_file
           (Scenario.fails_at 4 (py "Disk quota exceeded"))
           Scenario.conf (py "server{}") Scenario.w0
           (py "Disk quota exceeded")); reflexivity.
Defined.

(** ** What the public operations keep true of the table *)

Lemma keeps_apply_action (R : World -> World -> Prop) env (Q : Event -> Prop)
    action_details nginx_container_name :
  (forall w, R w w) ->
  (forall a b c, R a b -> R b c -> R a c) ->
  (forall ev, Q ev -> keeps R (call env ev)) ->
  keeps R (uuid4 env) ->
  Q Connect -> Q OpenSftp -> Q (FileWrite (content action_details)) ->
  Q FileClose -> Q SftpClose -> Q ClientClose ->
  (forall u, Q (SftpOpen (temp_path (file_path action_details) u) (py "w"))) ->
  (forall u, Q (ExecCommand (move_command (temp_path (file_path action_details) u)
                               (file_path action_details)))) ->
  (forall u, Q (ExecCommand (py "rm " ++ temp_path (file_path action_details) u))) ->
  Q (ExecCommand (validation_command nginx_container_name)) ->
  Q (ExecCommand (reload_command nginx_container_name)) ->
  keeps R (apply_action env action_details nginx_container_name).
Proof.
  intros Hrefl Htrans Hcall Huuid Hc Ho Hw Hfc Hsc Hcc Hop Hmv Hrm Hv Hr.
  unfold apply_action. case_decide; [|apply keeps_ret; assumption].
  apply keeps_bind; [assumption..| |].
  { eapply keeps_write_remote_file_content; eassumption. }
  intros result. destruct (str_in _ result); [|apply keeps_ret; assumption].
  apply keeps_bind; [assumption..| |].
  { eapply keeps_run_remote_command; eassumption. }
  intros validation_output.
  destruct (negb _); [apply keeps_ret; assumption|].
  apply keeps_bind; [assumption..| |].
  { eapply keeps_run_remote_command; eassumption. }
  intros reload_output.
  destruct (str_in _ reload_output); apply keeps_ret; assumption.
Qed.

Lemma draws_grow_refl w : draws_grow w w.
Proof. unfold draws_grow. lia. Qed.

Lemma draws_grow_trans a b c : draws_grow a b -> draws_grow b c -> draws_grow a c.
Proof. unfold draws_grow. lia. Qed.

Lemma draws_grow_call env ev : keeps draws_grow (call env ev).
Proof.
  intros w. unfold exec, call, draws_grow. simpl.
  destruct (raises env _); simpl; lia.
Qed.

Lemma draws_grow_uuid4 env : keeps draws_grow (uuid4 env).
Proof. intros w. unfold exec, uuid4, draws_grow. simpl. lia. Qed.

Lemma draws_grow_run_op env op : keeps draws_grow (run_op env op).
Proof.
  assert (forall ev, True -> keeps draws_grow (call env ev)) as Hcall
    by (intros; apply draws_grow_call).
  destruct op; cbn [run_op];
    try (eapply keeps_run_remote_command with (Q := fun _ => True);
         eauto using draws_grow_refl, draws_grow_trans, draws_grow_uuid4; fail);
    try (eapply keeps_read_remote_file_content with (Q := fun _ => True);
         eauto using draws_grow_refl, draws_grow_trans, draws_grow_uuid4; fail).
  - intros w. unfold exec. rewrite propose_nginx_config_update_eq.
    unfold draws_grow. simpl. lia.
  - intros w. unfold exec. rewrite apply_pending_change_cases.
    destruct (_pending_actions w !! action_id) as [a|]; [|apply draws_grow_refl].
    assert (keeps draws_grow (apply_action env a nginx_container_name)) as H
      by (apply (keeps_apply_action draws_grow env (fun _ => True) a
                   nginx_container_name draws_grow_refl draws_grow_trans Hcall
                   (draws_grow_uuid4 env)); auto).
    exact (H (with_table (delete action_id (_pending_actions w)) w)).
Qed.

Lemma same_table_run_op env op w :
  remote_only op ->
  _pending_actions (exec (run_op env op) w) = _pending_actions w.
Proof.
  destruct op; cbn [run_op remote_only]; intros H; try contradiction;
    first [ apply same_table_run_remote_command
          | apply same_table_read_remote_file_content ].
Qed.

Lemma run_op_invariants env op w :
  all_nginx w -> keys_drawn env w ->
  all_nginx (exec (run_op env op) w) /\ keys_drawn env (exec (run_op env op) w).
Proof.
  intros Hn Hk. pose proof (draws_grow_run_op env op w) as Hd.
  unfold draws_grow in Hd.
  assert (forall t,
            _pending_actions (exec (run_op env op) w) = t ->
            (forall k a, t !! k = Some a ->
                         _pending_actions w !! k = Some a) ->
            all_nginx (exec (run_op env op) w) /\
            keys_drawn env (exec (run_op env op) w)) as Hsub.
  { intros t Ht Hin. split.
    - intros k a Hka. rewrite Ht in Hka. eapply Hn, Hin, Hka.
    - intros k [a Hka]. rewrite Ht in Hka. apply Hin in Hka.
      destruct (Hk k (mk_is_Some _ _ Hka)) as (n & Hlt & ->).
      exists n. split; [lia | reflexivity]. }
  destruct op;
    try (match goal with
         | |- context [run_op env ?o] =>
             apply (Hsub _ (same_table_run_op env o w I)); auto
         end; fail).
  - clear Hsub. revert Hd. cbn [run_op]. unfold exec.
    rewrite propose_nginx_config_update_eq.
    unfold all_nginx, keys_drawn. cbn [fst draws _pending_actions].
    intros _. split.
    + intros k a. rewrite lookup_insert. case_decide.
      * intros [= <-]. reflexivity.
      * apply Hn.
    + intros k. rewrite lookup_insert. case_decide.
      * intros _. exists (draws w). split; [lia | congruence].
      * intros Hin. destruct (Hk k Hin) as (n & Hlt & ->).
        exists n. split; [lia | reflexivity].
  - apply (Hsub _ (apply_pending_change_table env _ _ w)).
    intros k a Hka. apply lookup_delete_Some in Hka as [_ Hka]. exact Hka.
Qed.

Lemma apply_action_is_not_unknown env a nginx_container_name w t :
  type a = py "nginx_config_update" ->
  outcome (apply_action env a nginx_container_name) w
    <> Ok (unknown_kind_message t).
Proof.
  intros Hty. unfold outcome, apply_action, unknown_kind_message.
  case_decide; [|contradiction].
  unfold bind at 1.
  destruct (_write_remote_file_content env _ _ w) as [w1 [result|e]];
    [|discriminate].
  destruct (str_in _ result);
    [|cbn; intros Heq; injection Heq as Heq; vm_compute in Heq; discriminate Heq].
  unfold bind at 1.
  destruct (_run_remote_command env _ None w1) as [w2 [vo|e]]; [|discriminate].
  destruct (negb _);
    [cbn; intros Heq; injection Heq as Heq; vm_compute in Heq; discriminate Heq|].
  unfold bind at 1.
  destruct (_run_remote_command env _ None w2) as [w3 [ro|e]]; [|discriminate].
  destruct (str_in _ ro);
    cbn; intros Heq; injection Heq as Heq; vm_compute in Heq; discriminate Heq.
Qed.

(** X13.  Through the public operations the table only ever holds nginx
    updates keyed by the text of a UUID drawn earlier: both facts hold of
    the empty table and are kept by every sequence of operations.  As a
    result no apply on such a table answers with the unknown-kind text: that
    branch is out of reach of the tool's own proposals. *)
Theorem public_operations_keep_table_well_formed env ops w :
  all_nginx w -> keys_drawn env w ->
  all_nginx (run_ops env ops w) /\
  keys_drawn env (run_ops env ops w) /\
  forall action_id nginx_container_name t,
    outcome (apply_pending_change env action_id nginx_container_name)
      (run_ops env ops w)
    <> Ok (unknown_kind_message t).
Proof.
  revert w. induction ops as [|op ops IH]; intros w Hn Hk.
  - split; [exact Hn|]. split; [exact Hk|].
    intros action_id c t. unfold outcome. cbn [run_ops].
    rewrite apply_pending_change_cases.
    destruct (_pending_actions w !! action_id) as [a|] eqn:E.
    + apply apply_action_is_not_unknown. eapply Hn, E.
    + cbn. unfold not_found_message, unknown_kind_message.
      intros H. injection H as H. vm_compute in H. discriminate H.
  - cbn [run_ops]. destruct (run_op_invariants env op w Hn Hk) as [Hn' Hk'].
    apply IH; assumption.
Qed.

Lemma public_operations_keep_table_well_formed_witness :
  let ops := [OpPropose (py "a") Scenario.conf; OpNginxConfig Scenario.conf;
              OpPropose (py "b") Scenario.conf;
              OpApply Scenario.first_id (py "nginx")] in
  all_nginx (run_ops Scenario.healthy ops Scenario.w0) /\
  keys_drawn Scenario.healthy (run_ops Scenario.healthy ops Scenario.w0) /\
  forall action_id nginx_container_name t,
    outcome (apply_pending_change Scenario.healthy action_id nginx_container_name)
      (run_ops Scenario.healthy ops Scenario.w0)
    <> Ok (unknown_kind_message t).
Proof.
  apply (public_operations_keep_table_well_formed Scenario.healthy
           [OpPropose (py "a") Scenario.conf; OpNginxConfig Scenario.conf;
            OpPropose (py "b") Scenario.conf;
            OpApply Scenario.first_id (py "nginx")] Scenario.w0).
  - intros k a H. unfold Scenario.w0 in H. cbn [_pending_actions] in H.
    rewrite lookup_empty in H. discriminate H.
  - intros k [a H]. unfold Scenario.w0 in H. cbn [_pending_actions] in H.
    rewrite lookup_empty in H. discriminate H.
Defined.

(** ** A full apply *)

Lemma raises_nowhere_goes_through env log calls :
  (forall l, raises env l = None) -> goes_through env log calls.
Proof. intros H n _. apply H. Qed.

Lemma raises_nowhere_runs_clean env w command :
  (forall l, raises env l = None) -> runs_clean env w command.
Proof. intros H. repeat split; apply H. Qed.

Lemma run_remote_command_answer env command w :
  runs_clean env w command ->
  _run_remote_command env command None w
  = (mkWorld (_pending_actions w) (draws w)
       (events w ++ [Connect; ExecCommand command; ClientClose]),
     Ok (clean_answer env (events w) command)).
Proof.
  intros H. apply (run_remote_command_clean env command None w H).
Qed.

(** X14.  On a host where no call raises, an apply of a pending nginx
    update whose move answers without ["Error"] and whose validation answers
    with a success phrase makes exactly fifteen calls (the SFTP write of the
    temporary file, then the move, the validation and the reload, each on a
    connection of its own) and consumes the entry and one UUID.  It reports
    the change as applied, unless the reload's answer contains ["Error"]: it
    then answers with the reload-failed text, the file staying as
    committed. *)
Theorem apply_goes_through env action_id nginx_container_name w a :
  let u := Uuid.uuid4_int (urandom env (draws w)) in
  let mv := move_command (temp_path (file_path a) u) (file_path a) in
  let validate := validation_command nginx_container_name in
  let reload := reload_command nginx_container_name in
  let log1 := events w ++ sftp_phase (file_path a) (content a) u in
  let log2 := log1 ++ [Connect; ExecCommand mv; ClientClose] in
  let log3 := log2 ++ [Connect; ExecCommand validate; ClientClose] in
  let log4 := log3 ++ [Connect; ExecCommand reload; ClientClose] in
  (forall l, raises env l = None) ->
  _pending_actions w !! action_id = Some a ->
  type a = py "nginx_config_update" ->
  str_in (py "Error") (clean_answer env log1 mv) = false ->
  validation_ok (clean_answer env log2 validate) = true ->
  apply_pending_change env action_id nginx_container_name w
  = (mkWorld (delete action_id (_pending_actions w)) (S (draws w)) log4,
     Ok (if str_in (py "Error") (clean_answer env log3 reload)
         then py "Nginx config updated and validated, but reload failed: " ++
              clean_answer env log3 reload ++ py "."
         else py "Successfully applied update to '" ++ file_path a ++
              py "', validated, and Nginx reloaded.")).
Proof.
  cbv zeta. intros Hnone E Hty Hmv Hval.
  set (w0 := with_table (delete action_id (_pending_actions w)) w).
  assert (_write_remote_file_content env (file_path a) (content a) w0
          = (mkWorld (delete action_id (_pending_actions w)) (S (draws w))
               ((events w ++ sftp_phase (file_path a) (content a)
                   (Uuid.uuid4_int (urandom env (draws w)))) ++
                [Connect;
                 ExecCommand (move_command
                                (temp_path (file_path a)
                                   (Uuid.uuid4_int (urandom env (draws w))))
                                (file_path a));
                 ClientClose]),
             Ok (py "Successfully updated " ++ file_path a ++ py "."))) as Hw.
  { destruct (write_remote_file_content_steps env (file_path a) (content a) w0
                (raises_nowhere_goes_through env _ _ Hnone)) as [_ ->].
    rewrite run_remote_command_answer
      by (apply raises_nowhere_runs_clean, Hnone).
    subst w0. cbn [with_table events draws _pending_actions].
    rewrite Hmv. reflexivity. }
  rewrite (apply_pending_change_stages env action_id nginx_container_name w a
             _ _ E Hty Hw).
  replace (str_in (py "Successfully updated")
             (py "Successfully updated " ++ file_path a ++ py "."))
    with true.
  2:{ symmetry.
      change (py "Successfully updated " ++ file_path a ++ py ".")
        with ([] ++ py "Successfully updated" ++
              (py " " ++ file_path a ++ py ".")).
      apply str_in_intro. }
  rewrite run_remote_command_answer
    by (apply raises_nowhere_runs_clean, Hnone).
  cbn [events draws _pending_actions]. rewrite Hval.
  rewrite run_remote_command_answer
    by (apply raises_nowhere_runs_clean, Hnone).
  cbn [events draws _pending_actions]. reflexivity.
Qed.

Lemma apply_goes_through_witness :
  let wp := exec (propose_nginx_config_update Scenario.healthy (py "server{}")
                    Scenario.conf) Scenario.w0 in
  snd (apply_pending_change Scenario.healthy Scenario.first_id (py "nginx") wp)
  = Ok (py "Successfully applied update to '/etc/svc/app.conf', validated, and Nginx reloaded.") /\
  length (events (fst (apply_pending_change Scenario.healthy Scenario.first_id
                         (py "nginx") wp))) = 15.
Proof.
  cbv zeta.
  pose proof (apply_goes_through Scenario.healthy Scenario.first_id (py "nginx")
                (exec (propose_nginx_config_update Scenario.healthy
                         (py "server{}") Scenario.conf) Scenario.w0)
                (mkAction (py "nginx_config_update") Scenario.conf
                   (py "server{}"))) as H.
  cbv zeta in H.
  assert (forall l, raises Scenario.healthy l = None) as Hnone
    by (intros l; reflexivity).
  specialize (H Hnone).
  specialize (H ltac:(vm_compute; reflexivity)).
  specialize (H eq_refl).
  specialize (H ltac:(vm_compute; reflexivity)).
  specialize (H ltac:(vm_compute; reflexivity)).
  rewrite H. split; vm_compute; reflexivity.
Defined.

Lemma issues_apply_action env a nginx_container_name w :
  issues (apply_calls (file_path a) (content a) nginx_container_name) w
    (exec (apply_action env a nginx_container_name) w).
Proof.
  apply (keeps_apply_action
           (issues (apply_calls (file_path a) (content a) nginx_container_name))
           env (apply_calls (file_path a) (content a) nginx_container_name)
           a nginx_container_name);
    eauto with frame;
    try (intros ev H; apply issues_call, H);
    unfold apply_calls, write_calls, run_calls; auto 10;
    try (intros u; left; do 6 right; exists u; auto).
Qed.

(** X15.  The calls of an apply.  For a pending change, whatever the host
    does, every call apply makes belongs to the commit of that change or to
    the validation or the reload: the only commands it can execute are the
    move onto the target and the removal of a temporary path of the target's
    basename, [nginx -t] and [nginx -s reload] in the named container, and it
    never opens a file for reading. *)
Theorem apply_makes_only_its_calls env action_id nginx_container_name w a :
  _pending_actions w !! action_id = Some a ->
  exists d,
    events (exec (apply_pending_change env action_id nginx_container_name) w)
      = events w ++ d /\
    Forall (apply_calls (file_path a) (content a) nginx_container_name) d /\
    Forall (fun ev => ev <> FileRead /\ forall p, ev <> SftpOpen p (py "r")) d /\
    Forall (fun ev => forall cmd, ev = ExecCommand cmd ->
              (exists u,
                 cmd = move_command (temp_path (file_path a) u) (file_path a) \/
                 cmd = py "rm " ++ temp_path (file_path a) u) \/
              cmd = validation_command nginx_container_name \/
              cmd = reload_command nginx_container_name) d.
Proof.
  intros E. unfold exec. rewrite apply_pending_change_cases, E.
  destruct (issues_apply_action env a nginx_container_name
              (with_table (delete action_id (_pending_actions w)) w))
    as (d & Hd & F).
  exists d. split; [exact Hd|]. split; [exact F|]. split.
  - eapply Forall_impl; [exact F|]. intros ev Hev.
    unfold apply_calls, write_calls, run_calls in Hev.
    destruct Hev as [[->|[->|[->|[->|[->|[->|(u & [->|[->| ->]])]]]]]]
                    |[[->|[->| ->]]|[->|[->| ->]]]];
      split; try discriminate; intros p Hp; discriminate Hp.
  - eapply Forall_impl; [exact F|]. intros ev Hev cmd ->.
    unfold apply_calls, write_calls, run_calls in Hev.
    destruct Hev as [[H|[H|[H|[H|[H|[H|(u & [H|[H|H]])]]]]]]
                    |[[H|[H|H]]|[H|[H|H]]]];
      try discriminate H; injection H as ->; eauto.
Qed.

Lemma apply_makes_only_its_calls_witness :
  let wp := exec (propose_nginx_config_update Scenario.mv_denied (py "server{}")
                    Scenario.conf) Scenario.w0 in
  let a := mkAction (py "nginx_config_update") Scenario.conf (py "server{}") in
  exists d,
    events (exec (apply_pending_change Scenario.mv_denied Scenario.first_id
                    (py "nginx")) wp) = events wp ++ d /\
    Forall (apply_calls (file_path a) (content a) (py "nginx")) d /\
    Forall (fun ev => ev <> FileRead /\ forall p, ev <> SftpOpen p (py "r")) d /\
    Forall (fun ev => forall cmd, ev = ExecCommand cmd ->
              (exists u,
                 cmd = move_command (temp_path (file_path a) u) (file_path a) \/
                 cmd = py "rm " ++ temp_path (file_path a) u) \/
              cmd = validation_command (py "nginx") \/
              cmd = reload_command (py "nginx")) d.
Proof.
  apply (apply_makes_only_its_calls Scenario.mv_denied Scenario.first_id
           (py "nginx")
           (exec (propose_nginx_config_update Scenario.mv_denied (py "server{}")
                    Scenario.conf) Scenario.w0)
           (mkAction (py "nginx_config_update") Scenario.conf (py "server{}"))).
  vm_compute. reflexivity.
Defined.

(** ** The tools other than propose and apply *)

Lemma prefix_of_props (P : Event -> Prop) (d l : list Event) :
  d `prefix_of` l -> Forall P l ->
  Forall P d /\
  length (filter (fun ev => is_exec ev = true) d)
    <= length (filter (fun ev => is_exec ev = true) l).
Proof.
  intros [k ->] F. apply Forall_app in F as [F _]. split; [exact F|].
  rewrite filter_app, length_app. lia.
Qed.

Lemma read_remote_file_content_frame env remote_path w :
  draws (exec (_read_remote_file_content env remote_path) w) = draws w /\
  issues (fun ev => is_exec ev = false /\ forall data, ev <> FileWrite data) w
    (exec (_read_remote_file_content env remote_path) w).
Proof.
  split.
  - apply (keeps_read_remote_file_content
             (fun w w' => draws w' = draws w)
             ltac:(reflexivity) ltac:(intros a b c; simpl; congruence)
             env (fun _ => True)); auto.
    intros ev _ w0. unfold exec, call. simpl.
    destruct (raises env _); reflexivity.
  - apply (keeps_read_remote_file_content
             (issues (fun ev => is_exec ev = false /\
                                forall data, ev <> FileWrite data))
             (issues_refl _) (issues_trans _)
             env (fun ev => is_exec ev = false /\
                            forall data, ev <> FileWrite data));
      try (split; [reflexivity | discriminate]).
    intros ev H. apply issues_call, H.
Qed.

(** X16.  The seven tools other than propose and apply work on the host
    only: whatever it answers, they leave the pending table and the count of
    random draws as they were, never write to a file, and execute at most
    one command. *)
Theorem remote_only_tools_frame env op w :
  remote_only op ->
  let w' := exec (run_op env op) w in
  _pending_actions w' = _pending_actions w /\
  draws w' = draws w /\
  exists d,
    events w' = events w ++ d /\
    Forall (fun ev => forall data, ev <> FileWrite data) d /\
    length (filter (fun ev => is_exec ev = true) d) <= 1.
Proof.
  intros Hop. cbv zeta. split; [apply same_table_run_op, Hop|].
  assert (forall command working_dir,
            draws (exec (_run_remote_command env command working_dir) w)
              = draws w /\
            exists d,
              events (exec (_run_remote_command env command working_dir) w)
                = events w ++ d /\
              Forall (fun ev => forall data, ev <> FileWrite data) d /\
              length (filter (fun ev => is_exec ev = true) d) <= 1) as Hrun.
  { intros command working_dir.
    split; [apply run_remote_command_frame|].
    destruct (run_remote_command_delta env command working_dir w)
      as (d & Hd & Hpre & _).
    exists d. split; [exact Hd|].
    apply (prefix_of_props (fun ev => forall data, ev <> FileWrite data))
      in Hpre as [F Hlen].
    - split; [exact F|]. etransitivity; [exact Hlen|]. reflexivity.
    - repeat constructor; discriminate. }
  assert (forall remote_path,
            draws (exec (_read_remote_file_content env remote_path) w)
              = draws w /\
            exists d,
              events (exec (_read_remote_file_content env remote_path) w)
                = events w ++ d /\
              Forall (fun ev => forall data, ev <> FileWrite data) d /\
              length (filter (fun ev => is_exec ev = true) d) <= 1) as Hread.
  { intros remote_path.
    destruct (read_remote_file_content_frame env remote_path w)
      as (Hdraws & d & Hd & F).
    split; [exact Hdraws|]. exists d. split; [exact Hd|]. split.
    - eapply Forall_impl; [exact F|]. intros ev [_ H]. exact H.
    - replace (filter (fun ev => is_exec ev = true) d) with (@nil Event);
        [simpl; lia|].
      symmetry. clear Hd. induction F as [|ev d [Hev _] _ IH]; [reflexivity|].
      rewrite filter_cons_False by (rewrite Hev; discriminate). exact IH. }
  destruct op; cbn [run_op remote_only] in *; try contradiction;
    first [apply Hrun | apply Hread].
Qed.

Lemma remote_only_tools_frame_witness :
  let w := exec (propose_nginx_config_update Scenario.healthy (py "server{}")
                   Scenario.conf) Scenario.w0 in
  let w' := exec (docker_compose_action Scenario.healthy (py "restart")
                    (py "/opt/iot-stack")) w in
  _pending_actions w' = _pending_actions w /\
  draws w' = draws w /\
  exists d,
    events w' = events w ++ d /\
    Forall (fun ev => forall data, ev <> FileWrite data) d /\
    length (filter (fun ev => is_exec ev = true) d) <= 1.
Proof.
  exact (remote_only_tools_frame Scenario.healthy
           (OpComposeAction (py "restart") (py "/opt/iot-stack"))
           (exec (propose_nginx_config_update Scenario.healthy (py "server{}")
                    Scenario.conf) Scenario.w0) I).
Defined.

(** X17.  The three docker-compose command tools work inside the project
    directory: when it is not empty, the one command they can execute is
    their [docker-compose] command behind [cd <directory> &&]; when it is
    empty, the command alone. *)
Theorem compose_tools_run_in_project_dir env compose_project_dir w :
  let run_in (command : str) (tool : M str) :=
    exists d,
      events (exec tool w) = events w ++ d /\
      d `prefix_of`
        [Connect;
         ExecCommand (if truthy compose_project_dir
                      then py "cd " ++ compose_project_dir ++ py " && " ++ command
                      else command);
         ClientClose] in
  run_in (py "docker-compose ps")
    (list_docker_compose_containers env compose_project_dir) /\
  (forall action,
     run_in (py "docker-compose " ++ action)
       (docker_compose_action env action compose_project_dir)) /\
  (forall service_name lines,
     run_in (py "docker-compose logs --tail=" ++ str_of_int lines ++ py " " ++
             service_name)
       (read_docker_compose_logs env service_name lines compose_project_dir)).
Proof.
  cbv zeta.
  assert (forall command,
            exists d,
              events (exec (_run_remote_command env command
                              (Some compose_project_dir)) w) = events w ++ d /\
              d `prefix_of`
                [Connect;
                 ExecCommand (if truthy compose_project_dir
                              then py "cd " ++ compose_project_dir ++
                                   py " && " ++ command
                              else command);
                 ClientClose]) as H.
  { intros command.
    destruct (run_remote_command_delta env command (Some compose_project_dir) w)
      as (d & Hd & Hpre & _).
    exists d. split; [exact Hd | exact Hpre]. }
  split; [apply H|]. split; intros; apply H.
Qed.
